(** * mastodon-scout: a shallow embedding of [main.go]

    The development follows the layout of the Go program:

    - [GoString]: Go strings as byte sequences, the rune iteration of a
      [for ... range] loop over a string (UTF-8 decoding), [string(rune)],
      [strings.ReplaceAll] and the [%d] verb;
    - [Strip]: [stripHTML];
    - [Json]: the dynamically typed values produced by [encoding/json] and
      the defensive accessors [getStringField] and [getFloatField];
    - [Render]: [formatStatuses], [formatMentions], [formatSearchResults]
      and [formatText], writing to standard output;
    - [Prog]: [outputError], [makeRequest], the four fetchers and [main]
      with the parsing of its flags, in a small state-and-exit monad over
      the process's observable state (standard output, standard error,
      the requests sent);
    - [Samples]: hosts and records to run the program on;
    - [Wire]: the requests and the final state of a run, to state what a
      whole run does;
    - [Cases]: hosts that follow a script.

    The definitions come first; the modules [GoStringFacts],
    [ReplaceFacts], [StripFacts], [RenderFacts] and [ProgFacts], and after
    them [StripLaws], [RenderLaws] and [WireFacts], hold what is proved of
    them. *)

From Stdlib Require Import List Ascii String NArith ZArith Lia Bool.
From Stdlib Require Import Numbers.DecimalString.
From Stdlib Require Import Floats.SpecFloat.
From stdpp Require Import gmap strings.
Import ListNotations.

#[local] Set Warnings "-register-all".

(** A Go string is an immutable sequence of bytes. String literals of the
    source are written as Rocq string literals and read as their bytes. *)
Abbreviation gostring := (list ascii).
Coercion list_ascii_of_string : string >-> list.

(** The line feed written [\n] in the Go source. *)
Definition LF : ascii := ascii_of_N 10.

(* ================================================================== *)
(** * Go strings: runes, replacement, formatting *)
(* ================================================================== *)

Module GoString.

(** A rune is a Unicode code point; the ones a range loop produces are
    never negative, so [N] holds them. *)
Abbreviation rune := N.

Definition RuneError : rune := 0xFFFD%N.
Definition MaxRune : rune := 0x10FFFF%N.

Definition byteval (c : ascii) : N := N_of_ascii c.

Definition in_range (lo hi b : N) : bool := ((lo <=? b) && (b <=? hi))%N.

(** [utf8.DecodeRuneInString]: the first rune of [s] and its width in
    bytes.  An encoding that is truncated, overlong, a surrogate or beyond
    [MaxRune], and a stray byte, decode to [(RuneError, 1)]; the empty
    string to [(RuneError, 0)].  The accepted ranges of the second byte
    are those of the package's [acceptRanges] table. *)
Definition DecodeRuneInString (s : gostring) : rune * nat :=
  match s with
  | [] => (RuneError, 0)
  | c0 :: t0 =>
    let s0 := byteval c0 in
    if (s0 <? 0x80)%N then (s0, 1)
    else if ((s0 <? 0xC2) || (0xF4 <? s0))%N then (RuneError, 1)
    else
      let lo := (if s0 =? 0xE0 then 0xA0 else if s0 =? 0xF0 then 0x90 else 0x80)%N in
      let hi := (if s0 =? 0xED then 0x9F else if s0 =? 0xF4 then 0x8F else 0xBF)%N in
      match t0 with
      | [] => (RuneError, 1)
      | c1 :: t1 =>
        let s1 := byteval c1 in
        if negb (in_range lo hi s1) then (RuneError, 1)
        else if (s0 <? 0xE0)%N then
          (((s0 mod 32) * 64 + s1 mod 64)%N, 2)
        else
          match t1 with
          | [] => (RuneError, 1)
          | c2 :: t2 =>
            let s2 := byteval c2 in
            if negb (in_range 0x80 0xBF s2) then (RuneError, 1)
            else if (s0 <? 0xF0)%N then
              (((s0 mod 16) * 4096 + (s1 mod 64) * 64 + s2 mod 64)%N, 3)
            else
              match t2 with
              | [] => (RuneError, 1)
              | c3 :: _ =>
                let s3 := byteval c3 in
                if negb (in_range 0x80 0xBF s3) then (RuneError, 1)
                else
                  (((s0 mod 8) * 262144 + (s1 mod 64) * 4096
                    + (s2 mod 64) * 64 + s3 mod 64)%N, 4)
              end
          end
      end
  end.

(** The runes a [for _, char := range s] loop visits, in order: decode the
    first rune, advance by its width, repeat to the end of the string. *)
Fixpoint runes (s : gostring) : list rune :=
  match s with
  | [] => []
  | _ :: t0 =>
    let (r, width) := DecodeRuneInString s in
    r :: match width, t0 with
         | 2, _ :: t1 => runes t1
         | 3, _ :: _ :: t2 => runes t2
         | 4, _ :: _ :: _ :: t3 => runes t3
         | _, _ => runes t0
         end
  end.

(** The conversion [string(r)] of a rune: its UTF-8 encoding, and the
    encoding of [RuneError] for a surrogate or a value beyond [MaxRune]. *)
Definition encode3 (r : rune) : gostring :=
  [ascii_of_N (0xE0 + r / 4096); ascii_of_N (0x80 + (r / 64) mod 64);
   ascii_of_N (0x80 + r mod 64)]%N.

Definition string_of_rune (r : rune) : gostring :=
  if (r <=? 0x7F)%N then [ascii_of_N r]
  else if (r <=? 0x7FF)%N then
    [ascii_of_N (0xC0 + r / 64); ascii_of_N (0x80 + r mod 64)]%N
  else if ((MaxRune <? r) || in_range 0xD800 0xDFFF r)%N then encode3 RuneError
  else if (r <=? 0xFFFF)%N then encode3 r
  else
    [ascii_of_N (0xF0 + r / 262144); ascii_of_N (0x80 + (r / 4096) mod 64);
     ascii_of_N (0x80 + (r / 64) mod 64); ascii_of_N (0x80 + r mod 64)]%N.

(** [utf8.ValidString]: every rune of [s] is well encoded. *)
Fixpoint ValidString (s : gostring) : bool :=
  match s with
  | [] => true
  | c0 :: t0 =>
    let (r, width) := DecodeRuneInString s in
    match width, t0 with
    | 2, _ :: t1 => ValidString t1
    | 3, _ :: _ :: t2 => ValidString t2
    | 4, _ :: _ :: _ :: t3 => ValidString t3
    | _, _ => (byteval c0 <? 0x80)%N && ValidString t0
    end
  end.

(** [strings.HasPrefix], returning what follows the prefix. *)
Fixpoint cut_prefix (p s : gostring) : option gostring :=
  match p, s with
  | [], _ => Some s
  | a :: p', b :: s' => if Ascii.eqb a b then cut_prefix p' s' else None
  | _ :: _, [] => None
  end.

(** [strings.ReplaceAll s old new] for a non-empty [old]: scan [s] from the
    left; at the leftmost occurrence of [old] emit [new] and continue
    after the occurrence, so that the replaced occurrences never overlap.
    The fuel is the length of what remains to scan. *)
Fixpoint replace_scan (fuel : nat) (old new s : gostring) : gostring :=
  match fuel with
  | 0 => []
  | S fuel' =>
    match s with
    | [] => []
    | c :: s' =>
      match cut_prefix old s with
      | Some rest => new ++ replace_scan fuel' old new rest
      | None => c :: replace_scan fuel' old new s'
      end
    end
  end.

(** Every pattern of the program is a non-empty literal.  (With an empty
    [old] Go inserts [new] around every rune; no call site does that, and
    the definition below leaves such a string as it is.) *)
Definition ReplaceAll (s old new : gostring) : gostring :=
  match old with
  | [] => s
  | _ :: _ => replace_scan (length s) old new s
  end.

(** [s] contains [t] ([strings.Contains]). *)
Definition Contains (s t : gostring) : Prop :=
  exists a b, s = a ++ t ++ b.

Fixpoint containsb (s t : gostring) : bool :=
  match cut_prefix t s with
  | Some _ => true
  | None => match s with [] => false | _ :: s' => containsb s' t end
  end.

(** No occurrence of [old] lies across the cut between [x] and [y]. *)
Definition no_straddle (old x y : gostring) : Prop :=
  forall u v x' y', u <> [] -> v <> [] -> old = u ++ v ->
    x = x' ++ u -> y = v ++ y' -> False.

(** A sufficient test for a piece [m] to be replaced on its own wherever
    it stands: its first byte does not occur in [old] after the first
    position, and its last byte does not occur before the last. *)
Definition around_ok (m old : gostring) : bool :=
  match m, old with
  | c :: _, _ :: old' =>
    negb (existsb (Ascii.eqb c) old')
    && negb (existsb (Ascii.eqb (List.last m c)) (removelast old))
  | _, _ => false
  end.

(** The [%d] verb on an integer. *)
Definition itoa (n : Z) : gostring :=
  list_ascii_of_string (NilZero.string_of_int (Z.to_int n)).

End GoString.

(* ================================================================== *)
(** * stripHTML *)
(* ================================================================== *)

Module Strip.
Import GoString.

(** The state of the scanning loop: the text kept so far and the flag. *)
Record scan := Scan { result : gostring; inTag : bool }.

(** One iteration of the loop body of [stripHTML]. *)
Definition scan_step (st : scan) (char : rune) : scan :=
  if (char =? 60)%N (* '<' *) then Scan (result st) true
  else if (char =? 62)%N (* '>' *) then Scan (result st) false
  else if negb (inTag st) then Scan (result st ++ string_of_rune char) (inTag st)
  else st.

(** The loop [for _, char := range s]. *)
Definition scan_from (st : scan) (s : gostring) : scan :=
  fold_left scan_step (runes s) st.

Definition removeTags (s : gostring) : gostring :=
  result (scan_from (Scan [] false) s).

(** The entity and break-marker replacements, in the order of the source. *)
Definition replaceEntities (r : gostring) : gostring :=
  let r := ReplaceAll r "&lt;" "<" in
  let r := ReplaceAll r "&gt;" ">" in
  let r := ReplaceAll r "&amp;" "&" in
  let r := ReplaceAll r "&quot;" [ascii_of_N 34] in
  let r := ReplaceAll r "&#39;" "'" in
  r.

Definition replaceBreaks (r : gostring) : gostring :=
  let r := ReplaceAll r "<br>" [LF] in
  let r := ReplaceAll r "<br/>" [LF] in
  let r := ReplaceAll r "<br />" [LF] in
  let r := ReplaceAll r "</p><p>" [LF; LF] in
  r.

Definition stripHTML (s : gostring) : gostring :=
  replaceBreaks (replaceEntities (removeTags s)).

(** The same loop read recursively: the text kept from the runes [rs] when
    the loop is entered with the flag [b], and the flag it ends with. *)
Fixpoint kept (b : bool) (rs : list rune) : gostring :=
  match rs with
  | [] => []
  | char :: rs' =>
    if (char =? 60)%N then kept true rs'
    else if (char =? 62)%N then kept false rs'
    else if negb b then string_of_rune char ++ kept b rs'
    else kept b rs'
  end.

Fixpoint flag (b : bool) (rs : list rune) : bool :=
  match rs with
  | [] => b
  | char :: rs' =>
    if (char =? 60)%N then flag true rs'
    else if (char =? 62)%N then flag false rs'
    else flag b rs'
  end.

(** The two bytes the scan looks for. *)
Definition langle : ascii := "<"%char.
Definition rangle : ascii := ">"%char.

(** ASCII text without angle brackets. *)
Definition plain_ascii (m : gostring) : Prop :=
  Forall (fun c => (byteval c < 0x80)%N /\ c <> langle /\ c <> rangle) m.

(** Whether the scan of [s] from the start of a string ends inside a tag. *)
Definition endsInTag (s : gostring) : bool :=
  inTag (scan_from (Scan [] false) s).

End Strip.

(* ================================================================== *)
(** * Decoded JSON and the field accessors *)
(* ================================================================== *)

Module Json.

Abbreviation float64 := spec_float.

(** The dynamic values [encoding/json] stores in an [interface{}], with
    the Go types they carry.  A [map[string]interface{}] may be the nil
    map, written [None]; reading a key of the nil map gives the zero
    value, as reading an absent key does. *)
Inductive value :=
  | VNil                                          (* nil interface; JSON null *)
  | VBool (b : bool)                              (* bool *)
  | VFloat (f : float64)                          (* float64 *)
  | VString (s : gostring)                        (* string *)
  | VSlice (l : list value)                       (* []interface{} *)
  | VMap (m : option (gmap gostring value)).      (* map[string]interface{} *)

Abbreviation record := (option (gmap gostring value)).

(** What the program passes around as [data interface{}]: one of the
    values above, or a [[]map[string]interface{}]. *)
Inductive any :=
  | AValue (v : value)
  | ARecords (l : list record).

(** The index expression [m[key]]. *)
Definition index (m : record) (key : gostring) : value :=
  match m with
  | None => VNil
  | Some g => default VNil (g !! key)
  end.

(** The type assertions [v.(T)] in their two-result form. *)
Definition assert_string (v : value) : gostring * bool :=
  match v with VString s => (s, true) | _ => ([], false) end.

Definition assert_float64 (v : value) : float64 * bool :=
  match v with VFloat f => (f, true) | _ => (S754_zero false, false) end.

Definition assert_map (v : value) : record * bool :=
  match v with VMap m => (m, true) | _ => (None, false) end.

Definition assert_slice (v : value) : list value * bool :=
  match v with VSlice l => (l, true) | _ => ([], false) end.

Definition getStringField (m : record) (key : gostring) : gostring :=
  match m with
  | None => []
  | Some _ =>
    let (val, ok) := assert_string (index m key) in
    if ok then val else []
  end.

Definition getFloatField (m : record) (key : gostring) : float64 :=
  match m with
  | None => S754_zero false
  | Some _ =>
    let (val, ok) := assert_float64 (index m key) in
    if ok then val else S754_zero false
  end.

(** The conversion [int(f)]: truncation toward zero.  For a value outside
    the range of [int] the language leaves the result to the
    implementation; the one given is that of amd64. *)
Definition int_indefinite : Z := (- 2 ^ 63)%Z.

Definition int_of_float64 (f : float64) : Z :=
  match f with
  | S754_zero _ => 0%Z
  | S754_finite sign m e =>
    let mag := (if 0 <=? e then Z.pos m * 2 ^ e else Z.pos m / 2 ^ (- e))%Z in
    let v := (if sign then - mag else mag)%Z in
    if ((- 2 ^ 63 <=? v) && (v <? 2 ^ 63))%Z then v else int_indefinite
  | _ => int_indefinite
  end.

(** The [float64] whose value is the natural number [n], as a count
    decoded from JSON is. *)
Definition whole (n : Z) : float64 :=
  match n with
  | Zpos m => S754_finite false m 0
  | _ => S754_zero false
  end.

End Json.

(* ================================================================== *)
(** * Text rendering *)
(* ================================================================== *)

Module Render.
Import GoString Strip Json.

(** Each function returns the text it writes to standard output. *)

(** The body of the loop of [formatStatuses] for the status at index [i]. *)
Definition formatStatus (i : nat) (status : record) : gostring :=
  (* Check if this is a boost (reblog) *)
  let (reblog, isReblog) := assert_map (index status "reblog") in
  let boostedBy : gostring :=
    if isReblog then
      let account := fst (assert_map (index status "account")) in
      getStringField account "username"
    else [] in
  (* Extract post info - use reblog content if boosted *)
  let '(content, createdAt, reblogsCount, favoritesCount, repliesCount,
        postURL, postAccount) :=
    if isReblog then
      (getStringField reblog "content",
       getStringField reblog "created_at",
       getFloatField reblog "reblogs_count",
       getFloatField reblog "favourites_count",
       getFloatField reblog "replies_count",
       getStringField reblog "url",
       fst (assert_map (index reblog "account")))
    else
      (getStringField status "content",
       getStringField status "created_at",
       getFloatField status "reblogs_count",
       getFloatField status "favourites_count",
       getFloatField status "replies_count",
       getStringField status "url",
       fst (assert_map (index status "account"))) in
  (* Extract account info (from original post for boosts) *)
  let username := getStringField postAccount "username" in
  let displayName := getStringField postAccount "display_name" in
  (* Strip HTML tags from content *)
  let content := stripHTML content in
  (* Print formatted post *)
  "--- Post " ++ itoa (Z.of_nat i + 1) ++ " ---" ++ [LF]
  ++ (if isReblog then "🔁 @" ++ boostedBy ++ " boosted" ++ [LF] else [])
  ++ "@" ++ username ++ " (" ++ displayName ++ ")" ++ [LF]
  ++ createdAt ++ [LF]
  ++ [LF] ++ content ++ [LF; LF]
  ++ "💬 " ++ itoa (int_of_float64 repliesCount)
  ++ "  🔁 " ++ itoa (int_of_float64 reblogsCount)
  ++ "  ⭐ " ++ itoa (int_of_float64 favoritesCount) ++ [LF]
  ++ "🔗 " ++ postURL ++ [LF; LF].

(** The parts of a rendered post, in the words of the specification: the
    separator with the 1-based index; the line noting who boosted, read
    from the [account] of the record [outer]; and the author line, the
    time stamp, the stripped content, the counts and the URL, all read
    from the one record [r]. *)
Definition postHeader (i : nat) : gostring :=
  "--- Post " ++ itoa (Z.of_nat i + 1) ++ " ---" ++ [LF].

Definition boostLine (outer : record) : gostring :=
  "🔁 @" ++ getStringField (fst (assert_map (index outer "account"))) "username"
  ++ " boosted" ++ [LF].

Definition postBody (r : record) : gostring :=
  let account := fst (assert_map (index r "account")) in
  "@" ++ getStringField account "username"
  ++ " (" ++ getStringField account "display_name" ++ ")" ++ [LF]
  ++ getStringField r "created_at" ++ [LF]
  ++ [LF] ++ stripHTML (getStringField r "content") ++ [LF; LF]
  ++ "💬 " ++ itoa (int_of_float64 (getFloatField r "replies_count"))
  ++ "  🔁 " ++ itoa (int_of_float64 (getFloatField r "reblogs_count"))
  ++ "  ⭐ " ++ itoa (int_of_float64 (getFloatField r "favourites_count")) ++ [LF]
  ++ "🔗 " ++ getStringField r "url" ++ [LF; LF].

(** A record that stores, under the keys of a status, the values given,
    whatever else it holds ([rest], and [acc] in its account). *)
Definition storedPost (content createdAt url username displayName : gostring)
    (replies reblogs favourites : Z) (acc rest : gmap gostring value)
  : gmap gostring value :=
  <["content" : gostring := VString content]>
  (<["created_at" : gostring := VString createdAt]>
  (<["replies_count" : gostring := VFloat (whole replies)]>
  (<["reblogs_count" : gostring := VFloat (whole reblogs)]>
  (<["favourites_count" : gostring := VFloat (whole favourites)]>
  (<["url" : gostring := VString url]>
  (<["account" : gostring :=
       VMap (Some (<["username" : gostring := VString username]>
                  (<["display_name" : gostring := VString displayName]> acc)))]>
   rest)))))).

(** [for i, x := range xs { body }] for a body that only prints. *)
Fixpoint range_from {A} (body : nat -> A -> gostring) (i : nat) (xs : list A)
  : gostring :=
  match xs with
  | [] => []
  | x :: xs' => body i x ++ range_from body (S i) xs'
  end.

Definition formatStatuses (data : any) : gostring :=
  match data with
  | ARecords statuses =>
    if (length statuses =? 0)%nat then "No posts found." ++ [LF]
    else range_from formatStatus 0 statuses
  | _ => "Error: unexpected data format" ++ [LF]
  end.

(** The body of the loop of [formatMentions]. *)
Definition formatMention (i : nat) (mention : record) : gostring :=
  (* Extract account info *)
  let account := fst (assert_map (index mention "account")) in
  let username := getStringField account "username" in
  let displayName := getStringField account "display_name" in
  (* Extract status info if present *)
  let status := fst (assert_map (index mention "status")) in
  let content := getStringField status "content" in
  let createdAt := getStringField mention "created_at" in
  (* Strip HTML tags from content *)
  let content := stripHTML content in
  (* Print formatted mention *)
  "--- Mention " ++ itoa (Z.of_nat i + 1) ++ " ---" ++ [LF]
  ++ "@" ++ username ++ " (" ++ displayName ++ ") mentioned you" ++ [LF]
  ++ createdAt ++ [LF]
  ++ [LF] ++ content ++ [LF; LF].

Definition formatMentions (data : any) : gostring :=
  match data with
  | ARecords mentions =>
    if (length mentions =? 0)%nat then "No mentions found." ++ [LF]
    else range_from formatMention 0 mentions
  | _ => "Error: unexpected data format" ++ [LF]
  end.

(** The conversion loop of [formatSearchResults]: [statusMaps[i] = sm]
    for the elements that are maps; the others keep the zero value the
    slice was made with. *)
Fixpoint coerceStatuses (i : nat) (statuses : list value)
    (statusMaps : list record) : list record :=
  match statuses with
  | [] => statusMaps
  | s :: rest =>
    let (sm, ok) := assert_map s in
    coerceStatuses (S i) rest (if ok then <[i := sm]> statusMaps else statusMaps)
  end.

Definition formatSearchResults (data : any) : gostring :=
  match data with
  | AValue (VMap searchResult) =>
    let statuses := fst (assert_slice (index searchResult "statuses")) in
    if (length statuses =? 0)%nat then "No posts found." ++ [LF]
    else
      (* Convert to the format expected by formatStatuses *)
      let statusMaps := replicate (length statuses) (None : record) in
      let statusMaps := coerceStatuses 0 statuses statusMaps in
      formatStatuses (ARecords statusMaps)
  | _ => "Error: unexpected data format" ++ [LF]
  end.

Definition formatText (command : gostring) (data : any) : gostring :=
  if decide (command = "home" \/ command = "user-tweets") then formatStatuses data
  else if decide (command = "mentions") then formatMentions data
  else if decide (command = "search") then formatSearchResults data
  else "Unknown command format" ++ [LF].

End Render.

(* ================================================================== *)
(** * The program: fetching, reporting, [main] *)
(* ================================================================== *)

Module Prog.
Import GoString Json Render.

(** The double quote, which a literal cannot hold. *)
Definition DQ : ascii := ascii_of_N 34.

(** The values of the four flags. *)
Record Flags := {
  flagInstanceURL : gostring;
  flagTimeout : Z;
  flagLimit : Z;
  flagJSON : bool
}.

Definition defaultInstanceURL : gostring := "https://mastodon.social".
Definition defaultTimeout : Z := 30.

Definition defaultFlags : Flags :=
  {| flagInstanceURL := defaultInstanceURL; flagTimeout := defaultTimeout;
     flagLimit := 20; flagJSON := false |}.

(** MastodonResponse wraps the API response. *)
Record MastodonResponse := {
  Success : bool;
  Data : any;                 (* omitempty: left out when the nil interface *)
  Error : option gostring     (* omitempty: left out when the nil pointer *)
}.

(** A GET request as [makeRequest] builds it; [Deadline] is the timeout of
    the context it was created with, a [time.Duration]: nanoseconds in an
    [int64]. *)
Record Request := {
  URL : gostring;
  Authorization : gostring;
  ContentType : gostring;
  Deadline : Z
}.

(** What becomes of a request that was sent. *)
Inductive Exchange :=
  | DoFailed (err : gostring)                     (* [client.Do] fails *)
  | ReadFailed (err : gostring)                   (* [io.ReadAll] fails *)
  | Received (StatusCode : Z) (body : gostring).

Inductive result (A : Type) :=
  | Ok (a : A)
  | Err (msg : gostring).
Arguments Ok {A} a.
Arguments Err {A} msg.

(** The errors of [flag.Parse]: [-h] or [-help], and the five failures of
    [parseOne]. *)
Inductive FlagError :=
  | ErrHelp
  | BadSyntax (s : gostring)
  | NotDefined (name : gostring)
  | InvalidBoolean (value name : gostring)
  | NeedsArgument (name : gostring)
  | InvalidValue (value name : gostring).

(** The packages the program is linked with and the network behind them.
    [Do] answers a request given the requests sent before it;
    [ParseInt] is [strconv.ParseInt(s, 0, 64)], without its error;
    [flagOutput] is what package [flag] writes for an error of
    [flag.Parse]: the message, if any, and the usage of the flags. *)
Record Host := {
  ParseInt : gostring -> option Z;
  flagOutput : FlagError -> gostring;
  NewRequest : gostring -> option gostring;       (* the error for a URL, if any *)
  Do : list Request -> Request -> Exchange;
  UnmarshalRecords : gostring -> result (list record);
  UnmarshalRecord : gostring -> result record;
  QueryEscape : gostring -> gostring;
  encodeString : gostring -> gostring;            (* a JSON string literal *)
  encodeData : any -> result gostring             (* the JSON text of a value *)
}.

(** [json.Marshal] on a [MastodonResponse]: the fields in order, the
    empty optional ones left out. *)
Definition Marshal (h : Host) (r : MastodonResponse) : result gostring :=
  let success : gostring := if Success r then "true" else "false" in
  let error : gostring :=
    match Error r with
    | Some msg => "," ++ [DQ] ++ "error" ++ [DQ] ++ ":" ++ encodeString h msg
    | None => []
    end in
  match Data r with
  | AValue VNil =>
    Ok ("{" ++ [DQ] ++ "success" ++ [DQ] ++ ":" ++ success ++ error ++ "}")
  | d =>
    match encodeData h d with
    | Ok j =>
      Ok ("{" ++ [DQ] ++ "success" ++ [DQ] ++ ":" ++ success
          ++ "," ++ [DQ] ++ "data" ++ [DQ] ++ ":" ++ j ++ error ++ "}")
    | Err e => Err e
    end
  end.

(** ** The process *)

Record process := {
  stdout : gostring;
  stderr : gostring;
  sent : list Request
}.

Definition start : process := {| stdout := []; stderr := []; sent := [] |}.

(** A computation returns a value or ends the process with an exit code. *)
Inductive outcome (A : Type) :=
  | Return (a : A)
  | Exit (code : Z).
Arguments Return {A} a.
Arguments Exit {A} code.

Definition M (A : Type) : Type := process -> outcome A * process.

#[global] Instance M_ret : MRet M := fun A a p => (Return a, p).

#[global] Instance M_bind : MBind M := fun A B k m p =>
  match m p with
  | (Return a, p') => k a p'
  | (Exit code, p') => (Exit code, p')
  end.

Definition os_Exit {A} (code : Z) : M A := fun p => (Exit code, p).

Definition print (text : gostring) : M unit :=
  fun p => (Return tt,
            {| stdout := stdout p ++ text; stderr := stderr p; sent := sent p |}).

Definition eprint (text : gostring) : M unit :=
  fun p => (Return tt,
            {| stdout := stdout p; stderr := stderr p ++ text; sent := sent p |}).

Definition Println (line : gostring) : M unit := print (line ++ [LF]).
Definition Eprintln (line : gostring) : M unit := eprint (line ++ [LF]).

(** [client.Do(req)] followed by [io.ReadAll(resp.Body)]. *)
Definition send (h : Host) (req : Request) : M Exchange :=
  fun p => (Return (Do h (sent p) req),
            {| stdout := stdout p; stderr := stderr p; sent := sent p ++ [req] |}).

(** The exit code of the process: that of [os.Exit], or 0 when [main]
    returns. *)
Definition exit_code {A} (r : outcome A * process) : Z :=
  match fst r with
  | Return _ => 0
  | Exit code => code
  end.

Definition outputError (h : Host) (msg : gostring) : M unit :=
  let response := {| Success := false; Data := AValue VNil; Error := Some msg |} in
  let output := match Marshal h response with Ok o => o | Err _ => [] end in
  Println output ;;
  eprint ("Error: " ++ msg ++ [LF]).

Definition StatusOK : Z := 200.

(** Arithmetic on [int64] wraps around. *)
Definition int64 (z : Z) : Z := ((z + 2 ^ 63) mod 2 ^ 64 - 2 ^ 63)%Z.

(** [time.Second], a [time.Duration]. *)
Definition Second : Z := 1000000000.

(** The request [makeRequest] prepares: the URL and the two headers, in
    the context [main] creates with the timeout
    [time.Duration( *flagTimeout)*time.Second]. *)
Definition buildRequest (fl : Flags) (token reqURL : gostring) : Request :=
  {| URL := reqURL;
     Authorization := "Bearer " ++ token;
     ContentType := "application/json";
     Deadline := int64 (flagTimeout fl * Second) |}.

Definition makeRequest (h : Host) (fl : Flags) (token endpoint : gostring)
  : M (result gostring) :=
  let reqURL := flagInstanceURL fl ++ endpoint in
  match NewRequest h reqURL with
  | Some err => mret (Err ("creating request: " ++ err))
  | None =>
    let req := buildRequest fl token reqURL in
    resp ← send h req;
    match resp with
    | DoFailed err => mret (Err ("making request: " ++ err))
    | ReadFailed err => mret (Err ("reading response: " ++ err))
    | Received StatusCode body =>
      if negb (StatusCode =? StatusOK)%Z then
        mret (Err ("API error (status " ++ itoa StatusCode ++ "): " ++ body))
      else mret (Ok body)
    end
  end.

Definition getHomeTimeline (h : Host) (fl : Flags) (token : gostring)
  : M (result any) :=
  let endpoint := "/api/v1/timelines/home?limit=" ++ itoa (flagLimit fl) in
  r ← makeRequest h fl token endpoint;
  match r with
  | Err err => mret (Err err)
  | Ok body =>
    match UnmarshalRecords h body with
    | Err err => mret (Err ("parsing response: " ++ err))
    | Ok timeline => mret (Ok (ARecords timeline))
    end
  end.

Definition getUserTweets (h : Host) (fl : Flags) (token : gostring)
  : M (result any) :=
  (* First get the authenticated user's ID *)
  r ← makeRequest h fl token "/api/v1/accounts/verify_credentials";
  match r with
  | Err err => mret (Err err)
  | Ok body =>
    match UnmarshalRecord h body with
    | Err err => mret (Err ("parsing account: " ++ err))
    | Ok account =>
      let (accountID, ok) := assert_string (index account "id") in
      if negb ok then mret (Err "account ID not found")
      else
        (* Get the user's statuses *)
        let endpoint := "/api/v1/accounts/" ++ accountID ++ "/statuses?limit="
                        ++ itoa (flagLimit fl) in
        r ← makeRequest h fl token endpoint;
        match r with
        | Err err => mret (Err err)
        | Ok body =>
          match UnmarshalRecords h body with
          | Err err => mret (Err ("parsing response: " ++ err))
          | Ok statuses => mret (Ok (ARecords statuses))
          end
        end
    end
  end.

Definition getMentions (h : Host) (fl : Flags) (token : gostring)
  : M (result any) :=
  let endpoint := "/api/v1/notifications?limit=" ++ itoa (flagLimit fl)
                  ++ "&types[]=mention" in
  r ← makeRequest h fl token endpoint;
  match r with
  | Err err => mret (Err err)
  | Ok body =>
    match UnmarshalRecords h body with
    | Err err => mret (Err ("parsing response: " ++ err))
    | Ok mentions => mret (Ok (ARecords mentions))
    end
  end.

Definition searchPosts (h : Host) (fl : Flags) (token query : gostring)
  : M (result any) :=
  let endpoint := "/api/v2/search?q=" ++ QueryEscape h query
                  ++ "&type=statuses&limit=" ++ itoa (flagLimit fl) in
  r ← makeRequest h fl token endpoint;
  match r with
  | Err err => mret (Err err)
  | Ok body =>
    match UnmarshalRecord h body with
    | Err err => mret (Err ("parsing response: " ++ err))
    | Ok searchResult => mret (Ok (AValue (VMap searchResult)))
    end
  end.

(** The usage text, as a whole. *)
Definition usage : gostring :=
  "Usage: mastodon-scout <command> [args]" ++ [LF]
  ++ "Commands:" ++ [LF]
  ++ "  home              Get home timeline" ++ [LF]
  ++ "  user-tweets       Get user's tweets" ++ [LF]
  ++ "  mentions          Get mentions" ++ [LF]
  ++ "  search <query>    Search for posts" ++ [LF].

(** ** The flags

    [flag.Parse()] on the command line: package [flag] sets the four
    flags from the arguments that start with a dash, up to the first
    argument that is not a flag, and ends the process on an error. *)

Definition ParseBool (str : gostring) : option bool :=
  if decide (str ∈ ["1" : gostring; "t" : gostring; "T" : gostring;
                    "TRUE" : gostring; "true" : gostring; "True" : gostring])
  then Some true
  else if decide (str ∈ ["0" : gostring; "f" : gostring; "F" : gostring;
                         "FALSE" : gostring; "false" : gostring;
                         "False" : gostring])
  then Some false
  else None.

(** The text before the first [=] of [s] and the text after it. *)
Fixpoint cutEquals (s : gostring) : option (gostring * gostring) :=
  match s with
  | [] => None
  | c :: t =>
    if Ascii.eqb c "=" then Some ([], t)
    else match cutEquals t with
         | Some (name, value) => Some (c :: name, value)
         | None => None
         end
  end.

Definition setJSON (fl : Flags) (b : bool) : Flags :=
  {| flagInstanceURL := flagInstanceURL fl; flagTimeout := flagTimeout fl;
     flagLimit := flagLimit fl; flagJSON := b |}.

(** [flag.Value.Set(value)] for the three flags that take a value; [None]
    when the value is not accepted. *)
Definition setFlag (h : Host) (fl : Flags) (name value : gostring) : option Flags :=
  if decide (name = "instance") then
    Some {| flagInstanceURL := value; flagTimeout := flagTimeout fl;
            flagLimit := flagLimit fl; flagJSON := flagJSON fl |}
  else
    match ParseInt h value with
    | None => None
    | Some v =>
      if decide (name = "timeout") then
        Some {| flagInstanceURL := flagInstanceURL fl; flagTimeout := v;
                flagLimit := flagLimit fl; flagJSON := flagJSON fl |}
      else
        Some {| flagInstanceURL := flagInstanceURL fl; flagTimeout := flagTimeout fl;
                flagLimit := v; flagJSON := flagJSON fl |}
    end.

Inductive Parsed :=
  | Flagged (fl : Flags) (args : list gostring)   (* the flags and [flag.Args()] *)
  | Failed (err : FlagError).

(** The loop of [FlagSet.Parse] over [parseOne]. *)
Fixpoint parse (h : Host) (fl : Flags) (args : list gostring) : Parsed :=
  match args with
  | [] => Flagged fl []
  | s :: rest =>
    match s with
    | c0 :: c1 :: s2 =>
      if negb (Ascii.eqb c0 "-") then Flagged fl args
      else if Ascii.eqb c1 "-" && (length s2 =? 0)%nat then
        Flagged fl rest                           (* "--" terminates the flags *)
      else
        match (if Ascii.eqb c1 "-" then s2 else c1 :: s2) with
        | [] => Failed (BadSyntax s)
        | n0 :: name' =>
          if Ascii.eqb n0 "-" || Ascii.eqb n0 "=" then Failed (BadSyntax s)
          else
            (* it's a flag. does it have an argument? *)
            let '(name, value) :=
              match cutEquals name' with          (* equals cannot be first *)
              | Some (n, v) => (n0 :: n, Some v)
              | None => (n0 :: name', None)
              end in
            if decide (name = "json") then
              (* special case: doesn't need an arg *)
              match value with
              | Some v =>
                match ParseBool v with
                | Some b => parse h (setJSON fl b) rest
                | None => Failed (InvalidBoolean v name)
                end
              | None => parse h (setJSON fl true) rest
              end
            else if decide (name = "instance" \/ name = "timeout" \/ name = "limit") then
              (* It must have a value, which might be the next argument. *)
              match value with
              | Some v =>
                match setFlag h fl name v with
                | Some fl' => parse h fl' rest
                | None => Failed (InvalidValue v name)
                end
              | None =>
                match rest with
                | v :: rest' =>
                  match setFlag h fl name v with
                  | Some fl' => parse h fl' rest'
                  | None => Failed (InvalidValue v name)
                  end
                | [] => Failed (NeedsArgument name)
                end
              end
            else if decide (name = "help" \/ name = "h") then Failed ErrHelp
            else Failed (NotDefined name)
        end
    | _ => Flagged fl args
    end
  end.

(** The exit status of [flag.Parse] on an error ([ExitOnError]). *)
Definition flagExit (err : FlagError) : Z :=
  match err with
  | ErrHelp => 0
  | _ => 2
  end.

Definition flag_Parse (h : Host) (argv : list gostring)
  : M (Flags * list gostring) :=
  match parse h defaultFlags argv with
  | Flagged fl args => mret (fl, args)
  | Failed err => eprint (flagOutput h err) ;; os_Exit (flagExit err)
  end.

(** [main] from line 38 on, [flag.Parse] having returned: [fl] holds the
    flags, [args] are the arguments that are not flags and [token] is the
    value of [MASTODON_TOKEN], empty when the variable is not set. *)
Definition afterParse (h : Host) (fl : Flags) (args : list gostring)
    (token : gostring) : M unit :=
  (if (length args =? 0)%nat then
     Eprintln "Usage: mastodon-scout <command> [args]" ;;
     Eprintln "Commands:" ;;
     Eprintln "  home              Get home timeline" ;;
     Eprintln "  user-tweets       Get user's tweets" ;;
     Eprintln "  mentions          Get mentions" ;;
     Eprintln "  search <query>    Search for posts" ;;
     os_Exit 1
   else mret tt) ;;
  (* Get bearer token from environment *)
  (if decide (token = []) then
     outputError h "MASTODON_TOKEN environment variable not set" ;; os_Exit 1
   else mret tt) ;;
  let command := nth 0 args [] in
  r ← (if decide (command = "home") then getHomeTimeline h fl token
        else if decide (command = "user-tweets") then getUserTweets h fl token
        else if decide (command = "mentions") then getMentions h fl token
        else if decide (command = "search") then
          (if (length args <? 2)%nat then
             outputError h "search command requires a query argument" ;; os_Exit 1
           else mret tt) ;;
          let query := nth 1 args [] in
          searchPosts h fl token query
        else
          outputError h ("unknown command: " ++ command) ;; os_Exit 1);
  match r with
  | Err err => outputError h err ;; os_Exit 1
  | Ok data =>
    (* Output based on format flag *)
    if flagJSON fl then
      let response := {| Success := true; Data := data; Error := None |} in
      match Marshal h response with
      | Err err => outputError h ("Error marshaling response: " ++ err) ;; os_Exit 1
      | Ok output => Println output
      end
    else
      (* Output human-readable text *)
      print (formatText command data)
  end.

(** [main] on the command line [argv] (the arguments after the name of
    the program). *)
Definition main (h : Host) (argv : list gostring) (token : gostring) : M unit :=
  parsed ← flag_Parse h argv;
  afterParse h (fst parsed) (snd parsed) token.

(** Running the program from a fresh process, on the command line
    [argv]. *)
Definition command_line (h : Host) (argv : list gostring) (token : gostring)
  : outcome unit * process :=
  main h argv token start.

(** The same once the flags are parsed: the run that [flag.Parse] leaves
    with the flags [fl] and the arguments [args]. *)
Definition run (h : Host) (fl : Flags) (args : list gostring) (token : gostring)
  : outcome unit * process :=
  afterParse h fl args token start.

(** ** Vocabulary of the specification *)

(** The failure envelope for a message. *)
Definition errorEnvelope (h : Host) (msg : gostring) : gostring :=
  "{" ++ [DQ] ++ "success" ++ [DQ] ++ ":false," ++ [DQ] ++ "error" ++ [DQ] ++ ":"
  ++ encodeString h msg ++ "}".

(** What a process that reported the failure [msg], and printed nothing
    else, has written. *)
Definition reported (h : Host) (msg : gostring) (p : process) : Prop :=
  stdout p = errorEnvelope h msg ++ [LF] /\
  stderr p = "Error: " ++ msg ++ [LF].

(** A computation that returns without printing and without ending the
    process. *)
Definition quiet {A} (m : M A) : Prop :=
  forall p, exists a p',
    m p = (Return a, p') /\ stdout p' = stdout p /\ stderr p' = stderr p.

(** The commands, and the fetcher of each: [rest] holds the arguments
    after the command. *)
Definition knownCommand (command : gostring) : Prop :=
  command = "home" \/ command = "user-tweets" \/ command = "mentions"
  \/ command = "search".

Definition fetch (h : Host) (fl : Flags) (token command : gostring)
    (rest : list gostring) : M (result any) :=
  if decide (command = "home") then getHomeTimeline h fl token
  else if decide (command = "user-tweets") then getUserTweets h fl token
  else if decide (command = "mentions") then getMentions h fl token
  else searchPosts h fl token (nth 0 rest []).

(** The failures of an invocation [command :: rest] and the message of
    each: a missing token, an unknown command, a missing search query, an
    error of the fetcher (network, API, decoding), an encoding error. *)
Inductive failure (h : Host) (fl : Flags) (command : gostring)
    (rest : list gostring) (token : gostring) : gostring -> Prop :=
  | MissingToken :
      token = [] ->
      failure h fl command rest token "MASTODON_TOKEN environment variable not set"
  | UnknownCommand :
      token <> [] -> ~ knownCommand command ->
      failure h fl command rest token ("unknown command: " ++ command)
  | MissingQuery :
      token <> [] -> command = "search" -> rest = [] ->
      failure h fl command rest token "search command requires a query argument"
  | FetchError err p :
      token <> [] -> knownCommand command ->
      (command = "search" -> rest <> []) ->
      fetch h fl token command rest start = (Return (Err err), p) ->
      failure h fl command rest token err
  | MarshalError data p err :
      token <> [] -> knownCommand command ->
      (command = "search" -> rest <> []) ->
      fetch h fl token command rest start = (Return (Ok data), p) ->
      flagJSON fl = true ->
      Marshal h {| Success := true; Data := data; Error := None |} = Err err ->
      failure h fl command rest token ("Error marshaling response: " ++ err).

(** What [main] does with the result of the fetcher. *)
Definition afterFetch (h : Host) (fl : Flags) (command : gostring)
    (r : result any) : M unit :=
  match r with
  | Err err => outputError h err ;; os_Exit 1
  | Ok data =>
    if flagJSON fl then
      let response := {| Success := true; Data := data; Error := None |} in
      match Marshal h response with
      | Err err => outputError h ("Error marshaling response: " ++ err) ;; os_Exit 1
      | Ok output => Println output
      end
    else print (formatText command data)
  end.

(** The error [makeRequest] returns for a response it does not accept. *)
Definition ApiError (StatusCode : Z) (body : gostring) : gostring :=
  "API error (status " ++ itoa StatusCode ++ "): " ++ body.

End Prog.

(* ================================================================== *)
(** * Sample inputs *)
(* ================================================================== *)

Module Samples.
Import GoString Json Render Prog.

(** Decimal numbers that fit an [int64], in place of
    [strconv.ParseInt]. *)
Fixpoint digits (acc : Z) (s : gostring) : option Z :=
  match s with
  | [] => Some acc
  | c :: t =>
    let d := (Z.of_N (N_of_ascii c) - 48)%Z in
    if ((0 <=? d) && (d <=? 9))%Z then digits (acc * 10 + d) t else None
  end.

Definition atoi (s : gostring) : option Z :=
  let number (neg : bool) (t : gostring) :=
    match t, digits 0 t with
    | _ :: _, Some n =>
      let v := if neg then (- n)%Z else n in
      if ((- 2 ^ 63 <=? v) && (v <? 2 ^ 63))%Z then Some v else None
    | _, _ => None
    end in
  match s with
  | c :: t =>
    if Ascii.eqb c "-" then number true t
    else if Ascii.eqb c "+" then number false t
    else number false s
  | [] => None
  end.

(** What the sample hosts write for an error of the flags: the first
    line of the usage only. *)
Definition usageOfFlags (err : FlagError) : gostring :=
  "Usage of mastodon-scout:" ++ [LF].

(** A host whose network answers every request with [answer], whose
    decoder yields [records] or [rec], and which encodes a string by
    putting it between quotes. *)
Definition host (answer : Exchange) : Host :=
  {| ParseInt := atoi;
     flagOutput := usageOfFlags;
     NewRequest := fun _ => None;
     Do := fun _ _ => answer;
     UnmarshalRecords := fun _ => Ok [];
     UnmarshalRecord := fun _ => Ok None;
     QueryEscape := fun q => q;
     encodeString := fun s => [DQ] ++ s ++ [DQ];
     encodeData := fun _ => Ok ("[]" : gostring) |}.

Definition notFound : Exchange := Received 404 "Record not found".
Definition created : Exchange := Received 201 "{}".

Definition account (username displayName : gostring) : value :=
  VMap (Some (<["username" : gostring := VString username]>
             (<["display_name" : gostring := VString displayName]> ∅))).

(** 3.5, as a count. *)
Definition three_and_a_half : float64 := S754_finite false 7 (-1).

Definition original : record :=
  Some (<["content" : gostring := VString "<p>inner &amp; x</p>"]>
       (<["created_at" : gostring := VString "2024-01-01"]>
       (<["replies_count" : gostring := VFloat three_and_a_half]>
       (<["url" : gostring := VString "https://example.org/1"]>
       (<["account" : gostring := account "alice" "Alice"]> ∅))))).

Definition boost : record :=
  Some (<["content" : gostring := VString "<p>outer</p>"]>
       (<["url" : gostring := VString "https://example.org/2"]>
       (<["account" : gostring := account "bob" "Bob"]>
       (<["reblog" : gostring := VMap original]> ∅)))).

End Samples.

(* ================================================================== *)
(** * The traffic of a run *)
(* ================================================================== *)

Module Wire.
Import GoString Json Render Prog.



(** What [makeRequest] returns for the exchange that answered it. *)
Definition exchangeResult (ex : Exchange) : result gostring :=
  match ex with
  | DoFailed err => Err ("making request: " ++ err)
  | ReadFailed err => Err ("reading response: " ++ err)
  | Received StatusCode body =>
    if (StatusCode =? StatusOK)%Z then Ok body else Err (ApiError StatusCode body)
  end.

(** The three commands that make one request. *)
Definition singleRequest (command : gostring) : Prop :=
  command = "home" \/ command = "mentions" \/ command = "search".

(** The endpoint of the first request of each command. *)
Definition firstEndpoint (h : Host) (fl : Flags) (command : gostring)
    (rest : list gostring) : gostring :=
  if decide (command = "home") then
    "/api/v1/timelines/home?limit=" ++ itoa (flagLimit fl)
  else if decide (command = "user-tweets") then
    "/api/v1/accounts/verify_credentials"
  else if decide (command = "mentions") then
    "/api/v1/notifications?limit=" ++ itoa (flagLimit fl) ++ "&types[]=mention"
  else
    "/api/v2/search?q=" ++ QueryEscape h (nth 0 rest [])
    ++ "&type=statuses&limit=" ++ itoa (flagLimit fl).

Definition firstRequest (h : Host) (fl : Flags) (token command : gostring)
    (rest : list gostring) : Request :=
  buildRequest fl token (flagInstanceURL fl ++ firstEndpoint h fl command rest).

(** The first request of [user-tweets]. *)
Definition credentialsRequest (fl : Flags) (token : gostring) : Request :=
  buildRequest fl token (flagInstanceURL fl ++ "/api/v1/accounts/verify_credentials").

(** The endpoint of the second request of [user-tweets]. *)
Definition statusesEndpoint (fl : Flags) (accountID : gostring) : gostring :=
  "/api/v1/accounts/" ++ accountID ++ "/statuses?limit=" ++ itoa (flagLimit fl).

(** The decoding each fetcher applies to the body of its last response:
    a record for [search], a sequence of records for the others. *)
Definition decode (h : Host) (command body : gostring) : result any :=
  if decide (command = "search") then
    match UnmarshalRecord h body with
    | Ok searchResult => Ok (AValue (VMap searchResult))
    | Err err => Err ("parsing response: " ++ err)
    end
  else
    match UnmarshalRecords h body with
    | Ok records => Ok (ARecords records)
    | Err err => Err ("parsing response: " ++ err)
    end.

(** The success envelope around the JSON text [j] of the data. *)
Definition successEnvelope (j : gostring) : gostring :=
  "{" ++ [DQ] ++ "success" ++ [DQ] ++ ":true," ++ [DQ] ++ "data" ++ [DQ] ++ ":"
  ++ j ++ "}".

(** The process after a failure with [msg] once [requests] were sent. *)
Definition failed (h : Host) (msg : gostring) (requests : list Request)
  : outcome unit * process :=
  (Exit 1, {| stdout := errorEnvelope h msg ++ [LF];
              stderr := "Error: " ++ msg ++ [LF];
              sent := requests |}).

(** The process after a success that printed [text]. *)
Definition succeeded (text : gostring) (requests : list Request)
  : outcome unit * process :=
  (Return tt, {| stdout := text; stderr := []; sent := requests |}).

End Wire.

(* ================================================================== *)
(** * Scripted hosts *)
(* ================================================================== *)

Module Cases.
Import GoString Json Render Prog Samples.

(** A host whose network gives the [n]-th request of a run the [n]-th of
    [answers] (and refuses the connection after them), and whose decoder
    yields [rec] for a record and [records] for a sequence. *)
Definition scripted (answers : list Exchange) (rec : result record)
    (records : result (list record)) : Host :=
  {| ParseInt := atoi;
     flagOutput := usageOfFlags;
     NewRequest := fun _ => None;
     Do := fun sent _ => nth (length sent) answers (DoFailed "connection refused");
     UnmarshalRecords := fun _ => records;
     UnmarshalRecord := fun _ => rec;
     QueryEscape := fun q => q;
     encodeString := fun s => [DQ] ++ s ++ [DQ];
     encodeData := fun _ => Ok ("[{}]" : gostring) |}.

(** A host for which no URL makes a request. *)
Definition refusing : Host :=
  {| ParseInt := atoi;
     flagOutput := usageOfFlags;
     NewRequest := fun _ => Some ("invalid URL" : gostring);
     Do := fun _ _ => DoFailed "unreachable";
     UnmarshalRecords := fun _ => Ok [];
     UnmarshalRecord := fun _ => Ok None;
     QueryEscape := fun q => q;
     encodeString := fun s => [DQ] ++ s ++ [DQ];
     encodeData := fun _ => Ok ("[]" : gostring) |}.

Definition accepted (body : gostring) : Exchange := Received 200 body.

(** The account of the caller, as [verify_credentials] describes it. *)
Definition me : record :=
  Some (<["id" : gostring := VString "42"]>
       (<["username" : gostring := VString "carol"]> ∅)).

(** An account whose identifier is a number. *)
Definition numbered : record :=
  Some (<["id" : gostring := VFloat three_and_a_half]> ∅).

Definition jsonFlags : Flags :=
  {| flagInstanceURL := "https://example.social"; flagTimeout := 5;
     flagLimit := 3; flagJSON := true |}.

(** A server that answers both requests of [user-tweets]. *)
Definition server : Host :=
  scripted [accepted "{}"; accepted "[{}]"] (Ok me) (Ok [boost]).

End Cases.

(* ================================================================== *)
(** * Facts about runes and UTF-8 *)
(* ================================================================== *)

Module GoStringFacts.
Import GoString.

#[local] Ltac Zify.zify_post_hook ::= Z.to_euclidean_division_equations.

Lemma byteval_lt c : (byteval c < 256)%N.
Proof. apply N_ascii_bounded. Qed.

Lemma ascii_of_byteval c : ascii_of_N (byteval c) = c.
Proof. apply ascii_N_embedding. Qed.

Lemma byteval_of_N n : (n < 256)%N -> byteval (ascii_of_N n) = n.
Proof. apply N_ascii_embedding. Qed.

Ltac split_tests :=
  repeat match goal with
  | |- context [if ?b then _ else _] =>
      let E := fresh "E" in destruct b eqn:E
  | H : context [if ?b then _ else _] |- _ =>
      let E := fresh "E" in destruct b eqn:E
  end.

Ltac to_arith :=
  unfold in_range in *;
  repeat match goal with
  | H : negb _ = true |- _ => apply negb_true_iff in H
  | H : negb _ = false |- _ => apply negb_false_iff in H
  | H : (_ && _)%bool = true |- _ => apply andb_true_iff in H; destruct H
  | H : (_ || _)%bool = false |- _ => apply orb_false_iff in H; destruct H
  | H : (_ <? _)%N = true |- _ => apply N.ltb_lt in H
  | H : (_ <? _)%N = false |- _ => apply N.ltb_ge in H
  | H : (_ <=? _)%N = true |- _ => apply N.leb_le in H
  | H : (_ <=? _)%N = false |- _ => apply N.leb_gt in H
  | H : (_ =? _)%N = true |- _ => apply N.eqb_eq in H
  | H : (_ =? _)%N = false |- _ => apply N.eqb_neq in H
  end.

Lemma list_len_ind (A : Type) (P : list A -> Prop) :
  (forall s, (forall t, (length t < length s)%nat -> P t) -> P s) ->
  forall s, P s.
Proof.
  intros IH s. remember (length s) as n eqn:En. revert s En.
  induction n as [n IHn] using lt_wf_ind. intros s ->.
  apply IH. intros t Ht. exact (IHn _ Ht t eq_refl).
Qed.

Lemma Decode_width s :
  s <> [] ->
  (1 <= snd (DecodeRuneInString s))%nat /\
  (snd (DecodeRuneInString s) <= 4)%nat /\
  (snd (DecodeRuneInString s) <= length s)%nat.
Proof.
  destruct s as [|c0 [|c1 [|c2 [|c3 t]]]]; [congruence|..]; intros _;
  unfold DecodeRuneInString; cbv zeta; split_tests; cbn [fst snd length]; lia.
Qed.

Lemma runes_unfold c0 t0 :
  runes (c0 :: t0) =
    let (r, width) := DecodeRuneInString (c0 :: t0) in
    r :: match width, t0 with
         | 2, _ :: t1 => runes t1
         | 3, _ :: _ :: t2 => runes t2
         | 4, _ :: _ :: _ :: t3 => runes t3
         | _, _ => runes t0
         end.
Proof. reflexivity. Qed.

Lemma runes_step s :
  s <> [] ->
  runes s = fst (DecodeRuneInString s)
            :: runes (skipn (snd (DecodeRuneInString s)) s).
Proof.
  destruct s as [|c0 t0]; [congruence|]; intros _.
  rewrite runes_unfold. generalize runes as R. intros R.
  destruct t0 as [|c1 [|c2 [|c3 t]]];
    unfold DecodeRuneInString; cbv zeta; split_tests; reflexivity.
Qed.

Lemma skipn_width_shorter s :
  s <> [] -> (length (skipn (snd (DecodeRuneInString s)) s) < length s)%nat.
Proof.
  intros Hs. destruct (Decode_width s Hs) as (H1 & _ & H3).
  rewrite length_skipn. destruct s; [congruence|]. simpl in *. lia.
Qed.

(** An ASCII byte is a rune of its own. *)
Lemma runes_ascii_cons c s :
  (byteval c < 0x80)%N -> runes (c :: s) = byteval c :: runes s.
Proof.
  intros Hc. rewrite runes_step by discriminate.
  unfold DecodeRuneInString. apply N.ltb_lt in Hc. rewrite Hc. reflexivity.
Qed.

(** A rune below 0x80 is decoded from the single byte of that value. *)
Lemma Decode_small c t :
  (fst (DecodeRuneInString (c :: t)) < 0x80)%N ->
  DecodeRuneInString (c :: t) = (byteval c, 1%nat) /\ (byteval c < 0x80)%N.
Proof.
  destruct t as [|c1 [|c2 [|c3 t]]];
    unfold DecodeRuneInString; cbv zeta; split_tests; cbn [fst snd];
    unfold RuneError; intros Hr; to_arith; try (split; [reflexivity|assumption]); lia.
Qed.

(** Appending text that starts with an ASCII byte does not change how the
    runes before it are decoded. *)
Lemma Decode_app_ascii a c b :
  a <> [] -> (byteval c < 0x80)%N ->
  DecodeRuneInString (a ++ c :: b) = DecodeRuneInString a.
Proof.
  intros Ha Hc.
  destruct a as [|c0 [|c1 [|c2 [|c3 t]]]]; [congruence|..];
    cbn [app]; unfold DecodeRuneInString; cbv zeta; split_tests;
    try reflexivity; to_arith; lia.
Qed.

Lemma runes_app_ascii a c b :
  (byteval c < 0x80)%N -> runes (a ++ c :: b) = runes a ++ runes (c :: b).
Proof.
  intros Hc. induction a as [a IH] using list_len_ind.
  destruct a as [|c0 a']; [reflexivity|].
  set (a := c0 :: a') in *. assert (Ha : a <> []) by discriminate.
  rewrite (runes_step (a ++ c :: b)) by (subst a; discriminate).
  rewrite (runes_step a Ha), Decode_app_ascii by assumption.
  destruct (Decode_width a Ha) as (H1 & _ & H3).
  rewrite skipn_app. replace (_ - length a)%nat with 0%nat by lia.
  cbn [skipn]. rewrite IH by (apply skipn_width_shorter; assumption).
  reflexivity.
Qed.

Lemma In_runes_ascii r s :
  (r < 0x80)%N -> In r (runes s) -> exists c, In c s /\ byteval c = r.
Proof.
  intros Hr. induction s as [s IH] using list_len_ind. intros Hin.
  destruct s as [|c0 s']; [contradiction|].
  rewrite runes_step in Hin by discriminate.
  destruct Hin as [Hhd|Htl].
  - exists c0. split; [left; reflexivity|].
    destruct (Decode_small c0 s') as [E _]; [rewrite Hhd; exact Hr|].
    rewrite E in Hhd. exact Hhd.
  - destruct (IH _ (skipn_width_shorter (c0 :: s') ltac:(discriminate)) Htl)
      as (c & Hc & Hv).
    exists c. split; [|exact Hv].
    rewrite <- (firstn_skipn (snd (DecodeRuneInString (c0 :: s'))) (c0 :: s')).
    apply in_or_app. right. exact Hc.
Qed.


Lemma ValidString_unfold c0 t0 :
  ValidString (c0 :: t0) =
    let (r, width) := DecodeRuneInString (c0 :: t0) in
    match width, t0 with
    | 2, _ :: t1 => ValidString t1
    | 3, _ :: _ :: t2 => ValidString t2
    | 4, _ :: _ :: _ :: t3 => ValidString t3
    | _, _ => (byteval c0 <? 0x80)%N && ValidString t0
    end.
Proof. reflexivity. Qed.

Ltac decide_tests :=
  repeat match goal with
  | |- context [(?a <=? ?b)%N] =>
      first [ replace (a <=? b)%N with true by (symmetry; apply N.leb_le; lia)
            | replace (a <=? b)%N with false by (symmetry; apply N.leb_gt; lia) ]
  | |- context [(?a <? ?b)%N] =>
      first [ replace (a <? b)%N with true by (symmetry; apply N.ltb_lt; lia)
            | replace (a <? b)%N with false by (symmetry; apply N.ltb_ge; lia) ]
  end.

Lemma ascii_of_N_eq n c : n = byteval c -> ascii_of_N n = c.
Proof. intros ->. apply ascii_of_byteval. Qed.

Ltac bytes_eq :=
  repeat match goal with
  | |- _ :: _ = _ :: _ => f_equal
  | |- ascii_of_N _ = _ => apply ascii_of_N_eq; lia
  end.

Lemma encode1 c : (byteval c < 0x80)%N -> string_of_rune (byteval c) = [c].
Proof.
  intros H. unfold string_of_rune.
  replace (byteval c <=? 0x7F)%N with true by (symmetry; apply N.leb_le; lia).
  rewrite ascii_of_byteval. reflexivity.
Qed.

Lemma encode2 c0 c1 :
  (0xC2 <= byteval c0 <= 0xDF)%N -> (0x80 <= byteval c1 <= 0xBF)%N ->
  string_of_rune ((byteval c0 mod 32) * 64 + byteval c1 mod 64) = [c0; c1].
Proof.
  intros H0 H1.
  set (r := ((byteval c0 mod 32) * 64 + byteval c1 mod 64)%N).
  assert (Hr : (r = (byteval c0 - 192) * 64 + (byteval c1 - 128))%N) by (subst r; lia).
  clearbody r. unfold string_of_rune. decide_tests.
  bytes_eq.
Qed.

Lemma encode3_bytes c0 c1 c2 :
  (0xE0 <= byteval c0 <= 0xEF)%N ->
  ((if byteval c0 =? 0xE0 then 0xA0 else 0x80) <= byteval c1)%N ->
  (byteval c1 <= (if byteval c0 =? 0xED then 0x9F else 0xBF))%N ->
  (0x80 <= byteval c2 <= 0xBF)%N ->
  string_of_rune ((byteval c0 mod 16) * 4096 + (byteval c1 mod 64) * 64
                  + byteval c2 mod 64) = [c0; c1; c2].
Proof.
  intros H0 Hlo Hhi H2.
  assert (H1 : (0x80 <= byteval c1 <= 0xBF)%N).
  { destruct (byteval c0 =? 0xE0)%N, (byteval c0 =? 0xED)%N; lia. }
  set (r := ((byteval c0 mod 16) * 4096 + (byteval c1 mod 64) * 64
             + byteval c2 mod 64)%N).
  assert (Hr : (r = (byteval c0 - 224) * 4096 + (byteval c1 - 128) * 64
                    + (byteval c2 - 128))%N) by (subst r; lia).
  clearbody r.
  assert (Hc : (byteval c0 < 0xED \/ byteval c0 = 0xED \/ 0xED < byteval c0)%N)
    by lia.
  destruct (N.eqb_spec (byteval c0) 0xE0), (N.eqb_spec (byteval c0) 0xED);
    try lia;
    (destruct Hc as [Hc|[Hc|Hc]]; try lia);
    unfold string_of_rune, encode3, MaxRune, in_range; decide_tests;
    cbn [orb andb]; decide_tests;
    bytes_eq.
Qed.

Lemma encode4 c0 c1 c2 c3 :
  (0xF0 <= byteval c0 <= 0xF4)%N ->
  ((if byteval c0 =? 0xF0 then 0x90 else 0x80) <= byteval c1)%N ->
  (byteval c1 <= (if byteval c0 =? 0xF4 then 0x8F else 0xBF))%N ->
  (0x80 <= byteval c2 <= 0xBF)%N -> (0x80 <= byteval c3 <= 0xBF)%N ->
  string_of_rune ((byteval c0 mod 8) * 262144 + (byteval c1 mod 64) * 4096
                  + (byteval c2 mod 64) * 64 + byteval c3 mod 64)
  = [c0; c1; c2; c3].
Proof.
  intros H0 Hlo Hhi H2 H3.
  assert (H1 : (0x80 <= byteval c1 <= 0xBF)%N).
  { destruct (byteval c0 =? 0xF0)%N, (byteval c0 =? 0xF4)%N; lia. }
  set (r := ((byteval c0 mod 8) * 262144 + (byteval c1 mod 64) * 4096
             + (byteval c2 mod 64) * 64 + byteval c3 mod 64)%N).
  assert (Hr : (r = (byteval c0 - 240) * 262144 + (byteval c1 - 128) * 4096
                    + (byteval c2 - 128) * 64 + (byteval c3 - 128))%N)
    by (subst r; lia).
  clearbody r.
  destruct (N.eqb_spec (byteval c0) 0xF0), (N.eqb_spec (byteval c0) 0xF4);
    try lia;
    unfold string_of_rune, encode3, MaxRune, in_range; decide_tests;
    cbn [orb andb];
    bytes_eq.
Qed.

Ltac split_eqb :=
  repeat match goal with
  | H : context [(?a =? ?b)%N] |- _ => destruct (N.eqb_spec a b)
  | |- context [(?a =? ?b)%N] => destruct (N.eqb_spec a b)
  end.

Lemma ValidString_step s :
  s <> [] -> ValidString s = true ->
  string_of_rune (fst (DecodeRuneInString s))
    = firstn (snd (DecodeRuneInString s)) s /\
  ValidString (skipn (snd (DecodeRuneInString s)) s) = true.
Proof.
  destruct s as [|c0 t0]; [congruence|]; intros _.
  rewrite ValidString_unfold. generalize ValidString as V. intros V.
  destruct t0 as [|c1 [|c2 [|c3 t]]];
    unfold DecodeRuneInString; cbv zeta;
    repeat match goal with
    | |- context [if negb (in_range ?lo ?hi ?b) then _ else _] =>
        let E := fresh "E" in destruct (in_range lo hi b) eqn:E; cbn [negb]
    | |- context [if (?a <? ?b)%N then _ else _] =>
        destruct (N.ltb_spec a b)
    | |- context [if (?a || ?b)%bool then _ else _] =>
        let E := fresh "E" in destruct (a || b)%bool eqn:E
    end;
    cbn [fst snd skipn firstn]; intros Hv;
    try discriminate Hv;
    try (apply andb_true_iff in Hv; destruct Hv as [Hv0 Hv]);
    try discriminate;
    (split; [|assumption]).
  all: to_arith.
  all: rewrite ?firstn_O.
  all: first [ apply encode1; assumption
             | apply encode2; split_eqb; lia
             | apply encode3_bytes; split_eqb; lia
             | apply encode4; split_eqb; lia
             | split_eqb; lia ].
Qed.

(** On a well-encoded string the range loop followed by [string(char)]
    gives back the bytes. *)
Lemma runes_roundtrip s :
  ValidString s = true -> flat_map string_of_rune (runes s) = s.
Proof.
  induction s as [s IH] using list_len_ind. intros Hv.
  destruct s as [|c0 s']; [reflexivity|].
  set (s := c0 :: s') in *. assert (Hs : s <> []) by discriminate.
  destruct (ValidString_step s Hs Hv) as [He Hv'].
  rewrite (runes_step s Hs). cbn [flat_map].
  rewrite He, IH by (try apply skipn_width_shorter; assumption).
  apply firstn_skipn.
Qed.

(** The decoder at work: one, two, three and four bytes; a stray byte. *)
Example runes_sample :
  runes "a" = [0x61%N] /\ runes "é" = [0xE9%N] /\ runes "€" = [0x20AC%N] /\
  runes "🔁" = [0x1F501%N] /\ runes [ascii_of_N 255] = [RuneError].
Proof. repeat split. Qed.

End GoStringFacts.

(* ================================================================== *)
(** * Facts about [ReplaceAll] *)
(* ================================================================== *)

Module ReplaceFacts.
Import GoString GoStringFacts.

Lemma cut_prefix_Some p s r : cut_prefix p s = Some r <-> s = p ++ r.
Proof.
  revert s. induction p as [|a p IH]; intros s; cbn [cut_prefix app].
  - split; [intros [= ->]; reflexivity | intros ->; reflexivity].
  - destruct s as [|b s]; [split; discriminate|].
    destruct (Ascii.eqb_spec a b) as [->|Hne].
    + rewrite IH. split; [intros ->; reflexivity | intros [= ->]; reflexivity].
    + split; [discriminate | intros [= E _]; congruence].
Qed.

Lemma cut_prefix_app p r : cut_prefix p (p ++ r) = Some r.
Proof. apply cut_prefix_Some. reflexivity. Qed.

Lemma cut_prefix_None p s : cut_prefix p s = None <-> forall r, s <> p ++ r.
Proof.
  split.
  - intros H r E. apply cut_prefix_Some in E. congruence.
  - intros H. destruct (cut_prefix p s) as [r|] eqn:E; [|reflexivity].
    apply cut_prefix_Some in E. destruct (H r E).
Qed.

Lemma containsb_Contains s t : containsb s t = true <-> Contains s t.
Proof.
  unfold Contains. induction s as [|c s IH].
  - cbn [containsb]. destruct (cut_prefix t []) as [r|] eqn:E.
    + apply cut_prefix_Some in E. split; [|reflexivity].
      intros _. exists [], r. exact E.
    + split; [discriminate|]. intros (a & b & Hab).
      exfalso. destruct a; [|discriminate].
      apply (proj1 (cut_prefix_None _ _) E b). exact Hab.
  - cbn [containsb]. destruct (cut_prefix t (c :: s)) as [r|] eqn:E.
    + apply cut_prefix_Some in E. split; [|reflexivity].
      intros _. exists [], r. exact E.
    + rewrite IH. split.
      * intros (a & b & ->). exists (c :: a), b. reflexivity.
      * intros (a & b & Hab). destruct a as [|c' a].
        -- destruct (proj1 (cut_prefix_None _ _) E b Hab).
        -- injection Hab as _ ->. exists a, b. reflexivity.
Qed.

Section Replace.
Variables (o : ascii) (old' new : gostring).
#[local] Abbreviation old := (o :: old').

Lemma cut_prefix_shorter s r :
    cut_prefix old s = Some r -> (length r < length s)%nat.
  Proof.
    intros H. apply cut_prefix_Some in H. subst s.
    rewrite length_app. simpl. lia.
  Qed.

Lemma replace_scan_fuel n m s :
    (length s <= n)%nat -> (length s <= m)%nat ->
    replace_scan n old new s = replace_scan m old new s.
  Proof.
    revert m s. induction n as [|n IH]; intros m s Hn Hm.
    - destruct s; [|simpl in Hn; lia]. destruct m; reflexivity.
    - destruct m as [|m]; [destruct s; [reflexivity|simpl in Hm; lia]|].
      cbn [replace_scan]. destruct s as [|c s]; [reflexivity|].
      destruct (cut_prefix old (c :: s)) as [r|] eqn:E.
      + apply cut_prefix_shorter in E. simpl in *.
        f_equal. apply IH; lia.
      + simpl in *. f_equal. apply IH; lia.
  Qed.

Lemma ReplaceAll_nil : ReplaceAll [] old new = [].
  Proof. reflexivity. Qed.

  (** The defining equation of the scan. *)
Lemma ReplaceAll_cons c s :
    ReplaceAll (c :: s) old new =
      match cut_prefix old (c :: s) with
      | Some rest => new ++ ReplaceAll rest old new
      | None => c :: ReplaceAll s old new
      end.
  Proof.
    unfold ReplaceAll. cbn [length replace_scan].
    destruct (cut_prefix (o :: old') (c :: s)) as [r|] eqn:E.
    - f_equal. apply replace_scan_fuel; [|lia].
      apply cut_prefix_shorter in E. simpl in E. lia.
    - reflexivity.
  Qed.

Lemma ReplaceAll_match r : ReplaceAll (old ++ r) old new = new ++ ReplaceAll r old new.
  Proof.
    cbn [app]. rewrite ReplaceAll_cons.
    change (o :: old' ++ r) with (old ++ r). rewrite cut_prefix_app. reflexivity.
  Qed.

  (** A string without occurrence of [old] is left as it is. *)
Lemma ReplaceAll_absent s :
    ~ Contains s old -> ReplaceAll s old new = s.
  Proof.
    induction s as [|c s IH]; intros Hno; [reflexivity|].
    rewrite ReplaceAll_cons.
    destruct (cut_prefix old (c :: s)) as [r|] eqn:E.
    - apply cut_prefix_Some in E. destruct Hno. exists [], r. exact E.
    - f_equal. apply IH. intros (a & b & ->). apply Hno.
      exists (c :: a), b. reflexivity.
  Qed.

Lemma no_straddle_tail c x y :
    no_straddle old (c :: x) y -> no_straddle old x y.
  Proof.
    intros H u v x' y' Hu Hv Ho -> ->.
    exact (H u v (c :: x') y' Hu Hv Ho eq_refl eq_refl).
  Qed.

Lemma no_straddle_suffix x0 x y :
    no_straddle old (x0 ++ x) y -> no_straddle old x y.
  Proof.
    induction x0 as [|c x0 IH]; [auto|]. intros H. apply IH.
    eapply no_straddle_tail. exact H.
  Qed.

  (** The scan of a concatenation is the concatenation of the scans when
      no occurrence lies across the cut. *)
Lemma ReplaceAll_app x y :
    no_straddle old x y ->
    ReplaceAll (x ++ y) old new = ReplaceAll x old new ++ ReplaceAll y old new.
  Proof.
    induction x as [x IH] using list_len_ind. intros Hns.
    destruct x as [|c x]; [reflexivity|].
    cbn [app]. rewrite !ReplaceAll_cons.
    destruct (cut_prefix old (c :: x)) as [r|] eqn:E.
    - apply cut_prefix_Some in E.
      change (c :: x ++ y) with ((c :: x) ++ y). rewrite E, <- app_assoc.
      rewrite cut_prefix_app, <- app_assoc. f_equal.
      apply IH.
      + rewrite E, length_app. simpl. lia.
      + rewrite E in Hns. eapply no_straddle_suffix. exact Hns.
    - destruct (cut_prefix old (c :: x ++ y)) as [r|] eqn:E2.
      + exfalso. apply cut_prefix_Some in E2.
        change (c :: x ++ y) with ((c :: x) ++ y) in E2.
        (* old is not a prefix of c :: x, so it reaches into y *)
        apply app_eq_app in E2. destruct E2 as (l & [[H1 H2]|[H1 H2]]).
        * destruct l as [|d l].
          -- rewrite app_nil_r in H1.
             apply (proj1 (cut_prefix_None _ _) E []). rewrite app_nil_r. exact H1.
          -- apply (proj1 (cut_prefix_None _ _) E (d :: l)). exact H1.
        * destruct l as [|d l].
          -- rewrite app_nil_r in H1.
             apply (proj1 (cut_prefix_None _ _) E []). rewrite app_nil_r. congruence.
          -- apply (Hns (c :: x) (d :: l) [] r); try discriminate; auto.
      + cbn [app]. f_equal. apply IH; [simpl; lia|].
        eapply no_straddle_tail. exact Hns.
  Qed.

End Replace.

Lemma Contains_cons c s t : Contains s t -> Contains (c :: s) t.
Proof. intros (a & b & ->). exists (c :: a), b. reflexivity. Qed.

Lemma Contains_app_r x s t : Contains s t -> Contains (x ++ s) t.
Proof. induction x; [auto|]. intros H. cbn [app]. apply Contains_cons. auto. Qed.

Lemma Contains_prefix s t r : s = t ++ r -> Contains s t.
Proof. intros ->. exists [], r. reflexivity. Qed.

Section Absent.
Variables (o : ascii) (old' : gostring) (n : ascii) (new' : gostring).
#[local] Abbreviation old := (o :: old').
#[local] Abbreviation new := (n :: new').

  (** A prefix of the output that shares no byte with [new] is a prefix
      of the input: nothing was replaced before its end. *)
Lemma ReplaceAll_prefix_back t s z :
    (forall c, In c t -> ~ In c new) ->
    ReplaceAll s old new = t ++ z -> exists z', s = t ++ z'.
  Proof.
    revert s z. induction t as [|d t IH]; intros s z Hd H; [exists s; reflexivity|].
    destruct s as [|c s]; [discriminate H|].
    rewrite ReplaceAll_cons in H.
    destruct (cut_prefix (o :: old') (c :: s)) as [r|] eqn:E.
    - exfalso. injection H as H _. apply (Hd d); [left; reflexivity|].
      left. exact H.
    - injection H as -> H. destruct (IH s z) as [z' ->].
      + intros c' Hc'. apply Hd. right. exact Hc'.
      + exact H.
      + exists z'. reflexivity.
  Qed.

  (** Replacing cannot create an occurrence of a text that shares no byte
      with [new]. *)
Lemma ReplaceAll_no_new_occurrence t s :
    (forall c, In c t -> ~ In c new) ->
    ~ Contains s t -> ~ Contains (ReplaceAll s old new) t.
  Proof.
    intros Hd. induction s as [s IH] using list_len_ind. intros Hno (a & b & H).
    destruct t as [|d t]; [apply Hno; exists [], s; reflexivity|].
    destruct s as [|c s]; [destruct a; discriminate H|].
    rewrite ReplaceAll_cons in H.
    destruct (cut_prefix (o :: old') (c :: s)) as [r|] eqn:E.
    - apply cut_prefix_Some in E.
      assert (Hr : ~ Contains (ReplaceAll r old new) (d :: t)).
      { apply IH.
        - rewrite E, length_app. simpl. lia.
        - intros Hc. apply Hno. rewrite E. apply Contains_app_r. exact Hc. }
      apply app_eq_app in H. destruct H as (l & [[H1 H2]|[H1 H2]]).
      + destruct l as [|e l].
        * apply Hr. exists [], b. rewrite app_nil_l in H2. symmetry. exact H2.
        * injection H2 as -> _. apply (Hd e); [left; reflexivity|].
          rewrite H1. apply in_or_app. right. left. reflexivity.
      + apply Hr. exists l, b. exact H2.
    - destruct a as [|c' a].
      + cbn [app] in H. injection H as <- H.
        destruct (ReplaceAll_prefix_back t s b) as [z' ->].
        * intros c' Hc'. apply Hd. right. exact Hc'.
        * exact H.
        * apply Hno. exists [], z'. reflexivity.
      + injection H as _ H. apply (IH s); [simpl; lia | |exists a, b; exact H].
        intros Hc. apply Hno. apply Contains_cons. exact Hc.
  Qed.

  (** When [new] shares no byte with [old], no occurrence of [old] is
      left after replacing. *)
Lemma ReplaceAll_removes s :
    (forall c, In c old -> ~ In c new) ->
    ~ Contains (ReplaceAll s old new) old.
  Proof.
    intros Hd. induction s as [s IH] using list_len_ind. intros (a & b & H).
    destruct s as [|c s]; [destruct a; discriminate H|].
    rewrite ReplaceAll_cons in H.
    destruct (cut_prefix (o :: old') (c :: s)) as [r|] eqn:E.
    - pose proof E as E'. apply cut_prefix_Some in E'.
      assert (Hr : ~ Contains (ReplaceAll r old new) old).
      { apply IH. rewrite E', length_app. simpl. lia. }
      apply app_eq_app in H. destruct H as (l & [[H1 H2]|[H1 H2]]).
      + destruct l as [|e l].
        * apply Hr. exists [], b. rewrite app_nil_l in H2. symmetry. exact H2.
        * injection H2 as -> _. apply (Hd e); [left; reflexivity|].
          rewrite H1. apply in_or_app. right. left. reflexivity.
      + apply Hr. exists l, b. exact H2.
    - destruct a as [|c' a].
      + cbn [app] in H. injection H as Hc H. subst c.
        destruct (ReplaceAll_prefix_back old' s b) as [z' ->].
        * intros c' Hc'. apply Hd. right. exact Hc'.
        * exact H.
        * change (o :: old' ++ z') with ((o :: old') ++ z') in E.
          rewrite cut_prefix_app in E. discriminate E.
      + injection H as _ H. apply (IH s); [simpl; lia |exists a, b; exact H].
  Qed.

End Absent.

Section Around.
Variables (o : ascii) (old' new : gostring).
#[local] Abbreviation old := (o :: old').

Lemma no_straddle_head x c y :
    ~ In c old' -> no_straddle old x (c :: y).
  Proof.
    intros Hc u v x' y' Hu Hv Ho _ Hy.
    destruct v as [|d v]; [congruence|]. injection Hy as -> _.
    destruct u as [|e u]; [congruence|]. injection Ho as _ Ho.
    apply Hc. rewrite Ho. apply in_or_app. right. left. reflexivity.
  Qed.

Lemma no_straddle_last x c y :
    ~ In c (removelast old) -> no_straddle old (x ++ [c]) y.
  Proof.
    intros Hc u v x' y' Hu Hv Ho Hx _.
    destruct (exists_last Hu) as (u' & e & ->).
    rewrite app_assoc in Hx. apply app_inj_tail in Hx. destruct Hx as [_ ->].
    apply Hc. rewrite Ho, <- app_assoc.
    rewrite removelast_app by (destruct v; [congruence|discriminate]).
    apply in_or_app. right.
    destruct v as [|d v]; [congruence|]. left. reflexivity.
  Qed.

  (** A piece [m] whose first byte does not occur in [old] after its first
      position, and whose last byte does not occur before its last, is
      replaced on its own. *)
Lemma ReplaceAll_around x m c m' y :
    m = c :: m' -> ~ In c old' -> ~ In (List.last m c) (removelast old) ->
    ReplaceAll (x ++ m ++ y) old new
    = ReplaceAll x old new ++ ReplaceAll m old new ++ ReplaceAll y old new.
  Proof.
    intros Hm Hc Hl.
    rewrite (ReplaceAll_app o old' new x (m ++ y)).
    - f_equal. apply ReplaceAll_app.
      assert (Hne : m <> []) by (rewrite Hm; discriminate).
      destruct (exists_last Hne) as (m0 & e & Hm0).
      rewrite Hm0 in Hl |- *. rewrite last_last in Hl.
      apply no_straddle_last. exact Hl.
    - rewrite Hm. cbn [app]. apply no_straddle_head. exact Hc.
  Qed.

End Around.

End ReplaceFacts.

(* ================================================================== *)
(** * Facts about [stripHTML] *)
(* ================================================================== *)

Module StripFacts.
Import GoString GoStringFacts ReplaceFacts Strip.

(** The loop and its recursive reading agree. *)
Lemma fold_scan rs st :
  fold_left scan_step rs st
  = Scan (result st ++ kept (inTag st) rs) (flag (inTag st) rs).
Proof.
  revert st. induction rs as [|char rs IH]; intros [res b]; cbn [fold_left kept flag result inTag].
  - rewrite app_nil_r. reflexivity.
  - rewrite IH. unfold scan_step. cbn [result inTag].
    destruct (char =? 60)%N; [reflexivity|].
    destruct (char =? 62)%N; [reflexivity|].
    destruct b; cbn [negb result inTag]; [reflexivity|].
    rewrite <- app_assoc. reflexivity.
Qed.

Lemma removeTags_kept s : removeTags s = kept false (runes s).
Proof. unfold removeTags, scan_from. rewrite fold_scan. reflexivity. Qed.

Lemma endsInTag_flag s : endsInTag s = flag false (runes s).
Proof. unfold endsInTag, scan_from. rewrite fold_scan. reflexivity. Qed.

Lemma kept_app b rs1 rs2 :
  kept b (rs1 ++ rs2) = kept b rs1 ++ kept (flag b rs1) rs2.
Proof.
  revert b. induction rs1 as [|char rs1 IH]; intros b; cbn [app kept flag]; [reflexivity|].
  destruct (char =? 60)%N; [apply IH|].
  destruct (char =? 62)%N; [apply IH|].
  destruct b; cbn [negb]; rewrite IH; [reflexivity|].
  rewrite app_assoc. reflexivity.
Qed.

Lemma flag_app b rs1 rs2 : flag b (rs1 ++ rs2) = flag (flag b rs1) rs2.
Proof.
  revert b. induction rs1 as [|char rs1 IH]; intros b; cbn [app flag]; [reflexivity|].
  destruct (char =? 60)%N; [apply IH|].
  destruct (char =? 62)%N; apply IH.
Qed.

(** Outside a tag, runes other than the two angle brackets are kept. *)
Lemma kept_plain rs :
  ~ In 60%N rs -> ~ In 62%N rs ->
  kept false rs = flat_map string_of_rune rs /\ flag false rs = false.
Proof.
  induction rs as [|char rs IH]; intros H60 H62; cbn [kept flag flat_map]; [auto|].
  destruct (N.eqb_spec char 60) as [->|_]; [destruct H60; left; reflexivity|].
  destruct (N.eqb_spec char 62) as [->|_]; [destruct H62; left; reflexivity|].
  cbn [negb]. destruct IH as [IH1 IH2].
  - intros H. apply H60. right. exact H.
  - intros H. apply H62. right. exact H.
  - rewrite IH1. auto.
Qed.

(** Inside a tag nothing is kept until a closing bracket comes. *)
Lemma kept_inside rs :
  ~ In 62%N rs -> kept true rs = [] /\ flag true rs = true.
Proof.
  induction rs as [|char rs IH]; intros H62; cbn [kept flag]; [auto|].
  assert (IH' : kept true rs = [] /\ flag true rs = true).
  { apply IH. intros H. apply H62. right. exact H. }
  destruct (char =? 60)%N; [exact IH'|].
  destruct (N.eqb_spec char 62) as [->|_]; [destruct H62; left; reflexivity|].
  exact IH'.
Qed.

Lemma byte_not_in_runes (c : ascii) s :
  (byteval c < 0x80)%N -> ~ In c s -> ~ In (byteval c) (runes s).
Proof.
  intros Hc Hs Hin. destruct (In_runes_ascii _ _ Hc Hin) as (c' & Hc' & Hv).
  apply Hs. replace c with c'; [exact Hc'|].
  rewrite <- (ascii_of_byteval c'), Hv. apply ascii_of_byteval.
Qed.


(** Text without angle brackets goes through the tag scan unchanged. *)
Lemma removeTags_plain s :
  ValidString s = true -> ~ In langle s -> ~ In rangle s ->
  removeTags s = s /\ endsInTag s = false.
Proof.
  intros Hv Hlt Hgt. rewrite removeTags_kept, endsInTag_flag.
  destruct (kept_plain (runes s)) as [E1 E2].
  - apply (byte_not_in_runes langle); [reflexivity | exact Hlt].
  - apply (byte_not_in_runes rangle); [reflexivity | exact Hgt].
  - rewrite E1, E2, runes_roundtrip by exact Hv. auto.
Qed.

(** An opening bracket that is never closed swallows the rest. *)
Lemma removeTags_unclosed a b :
  ~ In rangle b ->
  removeTags (a ++ langle :: b) = removeTags a /\ endsInTag (a ++ langle :: b) = true.
Proof.
  intros Hgt. rewrite !removeTags_kept, endsInTag_flag.
  rewrite runes_app_ascii by reflexivity.
  rewrite runes_ascii_cons by reflexivity.
  rewrite kept_app, flag_app. cbn [kept flag]. change (byteval langle =? 60)%N with true.
  cbn iota. destruct (kept_inside (runes b)) as [E1 E2].
  - apply (byte_not_in_runes rangle); [reflexivity | exact Hgt].
  - rewrite E1, E2, app_nil_r. auto.
Qed.

Lemma runes_plain_ascii m b :
  plain_ascii m -> runes (m ++ b) = map byteval m ++ runes b.
Proof.
  induction 1 as [|c m (Hc & _) _ IH]; [reflexivity|].
  cbn [app map]. rewrite runes_ascii_cons by exact Hc. rewrite IH. reflexivity.
Qed.

Lemma kept_plain_ascii b0 m rs :
  plain_ascii m ->
  kept b0 (map byteval m ++ rs) = (if b0 then [] else m) ++ kept b0 rs
  /\ flag b0 (map byteval m ++ rs) = flag b0 rs.
Proof.
  induction 1 as [|c m (Hc & Hl & Hg) _ IH]; [destruct b0; auto|].
  cbn [map app kept flag].
  destruct (N.eqb_spec (byteval c) 60) as [E|_].
  { destruct Hl. rewrite <- (ascii_of_byteval c), E. reflexivity. }
  destruct (N.eqb_spec (byteval c) 62) as [E|_].
  { destruct Hg. rewrite <- (ascii_of_byteval c), E. reflexivity. }
  destruct IH as [IH1 IH2]. rewrite IH1, IH2. split; [|reflexivity].
  destruct b0; cbn [negb]; [reflexivity|].
  rewrite encode1 by exact Hc. reflexivity.
Qed.

(** ASCII text without brackets, met outside a tag, is kept as it is. *)
Lemma removeTags_around a m b :
  plain_ascii m -> m <> [] -> endsInTag a = false ->
  removeTags (a ++ m ++ b) = removeTags a ++ m ++ removeTags b.
Proof.
  intros Hm Hne Ha. rewrite !removeTags_kept. rewrite endsInTag_flag in Ha.
  destruct m as [|c m]; [congruence|].
  assert (Hc : (byteval c < 0x80)%N) by (inversion Hm as [|? ? (H & _) _]; exact H).
  change ((c :: m) ++ b) with (c :: (m ++ b)).
  rewrite runes_app_ascii by exact Hc.
  change (c :: (m ++ b)) with ((c :: m) ++ b).
  rewrite runes_plain_ascii by exact Hm.
  rewrite kept_app, Ha.
  destruct (kept_plain_ascii false (c :: m) (runes b) Hm) as [E _].
  rewrite E. reflexivity.
Qed.

Lemma no_byte_no_Contains c s t : In c t -> ~ In c s -> ~ Contains s t.
Proof.
  intros Ht Hs (a & b & ->). apply Hs.
  apply in_or_app. right. apply in_or_app. left. exact Ht.
Qed.

Lemma existsb_eqb_In c l : existsb (Ascii.eqb c) l = false -> ~ In c l.
Proof.
  intros H Hin. assert (E : existsb (Ascii.eqb c) l = true).
  { apply existsb_exists. exists c. split; [exact Hin | apply Ascii.eqb_refl]. }
  congruence.
Qed.

Lemma ReplaceAll_stage x m y old new m2 :
  around_ok m old = true -> ReplaceAll m old new = m2 ->
  ReplaceAll (x ++ m ++ y) old new
  = ReplaceAll x old new ++ m2 ++ ReplaceAll y old new.
Proof.
  intros Hok <-. destruct m as [|c m']; [discriminate Hok|].
  destruct old as [|o old']; [discriminate Hok|].
  unfold around_ok in Hok. apply andb_true_iff in Hok. destruct Hok as [H1 H2].
  apply negb_true_iff in H1, H2.
  apply (ReplaceAll_around o old' new x (c :: m') c m' y eq_refl).
  - apply existsb_eqb_In. exact H1.
  - apply existsb_eqb_In. exact H2.
Qed.

Ltac plain_ascii_tac :=
  repeat constructor; try reflexivity; discriminate.

(** An escaped line break met outside a tag becomes one line feed. *)
Lemma stripHTML_escaped_br a b :
  endsInTag a = false ->
  stripHTML (a ++ "&lt;br&gt;" ++ b) = stripHTML a ++ [LF] ++ stripHTML b.
Proof.
  intros Ha. unfold stripHTML.
  rewrite removeTags_around; [|plain_ascii_tac|discriminate|exact Ha].
  generalize (removeTags a) as x. generalize (removeTags b) as y. intros y x.
  unfold replaceEntities, replaceBreaks. cbv zeta.
  rewrite (ReplaceAll_stage _ "&lt;br&gt;" _ "&lt;" "<" "<br&gt;") by (vm_compute; reflexivity).
  rewrite (ReplaceAll_stage _ "<br&gt;" _ "&gt;" ">" "<br>") by (vm_compute; reflexivity).
  rewrite (ReplaceAll_stage _ "<br>" _ "&amp;" "&" "<br>") by (vm_compute; reflexivity).
  rewrite (ReplaceAll_stage _ "<br>" _ "&quot;" [ascii_of_N 34] "<br>") by (vm_compute; reflexivity).
  rewrite (ReplaceAll_stage _ "<br>" _ "&#39;" "'" "<br>") by (vm_compute; reflexivity).
  rewrite (ReplaceAll_stage _ "<br>" _ "<br>" [LF] [LF]) by (vm_compute; reflexivity).
  rewrite (ReplaceAll_stage _ [LF] _ "<br/>" [LF] [LF]) by (vm_compute; reflexivity).
  rewrite (ReplaceAll_stage _ [LF] _ "<br />" [LF] [LF]) by (vm_compute; reflexivity).
  rewrite (ReplaceAll_stage _ [LF] _ "</p><p>" [LF; LF] [LF]) by (vm_compute; reflexivity).
  reflexivity.
Qed.

(** The paragraph marker is its own pattern at the last stage: no proper
    overlap of ["</p><p>"] with itself exists. *)
Lemma no_straddle_para_left x y :
  no_straddle "</p><p>" x ("</p><p>" ++ y).
Proof.
  intros u v x' y' Hu Hv Ho _ Hy.
  do 7 (destruct u as [|? u];
        [first [congruence | cbn in Ho; subst v; cbn in Hy; discriminate Hy]|];
        cbn in Ho; injection Ho as ? Ho; subst).
  destruct u; [|discriminate Ho]. cbn in Ho. congruence.
Qed.

Lemma suffix_skipn (x x' u : gostring) :
  x = x' ++ u -> skipn (length x - length u) x = u.
Proof.
  intros ->. rewrite length_app.
  replace (length x' + length u - length u)%nat with (length x') by lia.
  rewrite skipn_app, skipn_all, Nat.sub_diag. reflexivity.
Qed.

Lemma no_straddle_para_right y :
  no_straddle "</p><p>" "</p><p>" y.
Proof.
  intros u v x' y' Hu Hv Ho Hx _. apply suffix_skipn in Hx.
  do 7 (destruct u as [|? u];
        [first [congruence | cbn in Hx; discriminate Hx]|];
        cbn in Ho; injection Ho as ? Ho; subst).
  destruct u; [|discriminate Ho]. cbn in Ho. congruence.
Qed.

(** An escaped paragraph boundary met outside a tag becomes two. *)
Lemma stripHTML_escaped_para a b :
  endsInTag a = false ->
  stripHTML (a ++ "&lt;/p&gt;&lt;p&gt;" ++ b)
  = stripHTML a ++ [LF; LF] ++ stripHTML b.
Proof.
  intros Ha. unfold stripHTML.
  rewrite removeTags_around; [|plain_ascii_tac|discriminate|exact Ha].
  generalize (removeTags a) as x. generalize (removeTags b) as y. intros y x.
  unfold replaceEntities, replaceBreaks. cbv zeta.
  rewrite (ReplaceAll_stage _ "&lt;/p&gt;&lt;p&gt;" _ "&lt;" "<" "</p&gt;<p&gt;") by (vm_compute; reflexivity).
  rewrite (ReplaceAll_stage _ "</p&gt;<p&gt;" _ "&gt;" ">" "</p><p>") by (vm_compute; reflexivity).
  rewrite (ReplaceAll_stage _ "</p><p>" _ "&amp;" "&" "</p><p>") by (vm_compute; reflexivity).
  rewrite (ReplaceAll_stage _ "</p><p>" _ "&quot;" [ascii_of_N 34] "</p><p>") by (vm_compute; reflexivity).
  rewrite (ReplaceAll_stage _ "</p><p>" _ "&#39;" "'" "</p><p>") by (vm_compute; reflexivity).
  rewrite (ReplaceAll_stage _ "</p><p>" _ "<br>" [LF] "</p><p>") by (vm_compute; reflexivity).
  rewrite (ReplaceAll_stage _ "</p><p>" _ "<br/>" [LF] "</p><p>") by (vm_compute; reflexivity).
  rewrite (ReplaceAll_stage _ "</p><p>" _ "<br />" [LF] "</p><p>") by (vm_compute; reflexivity).
  rewrite (ReplaceAll_app "<"%char "/p><p>" [LF; LF] _ ("</p><p>" ++ _))
    by apply no_straddle_para_left.
  rewrite (ReplaceAll_app "<"%char "/p><p>" [LF; LF] "</p><p>" _)
    by apply no_straddle_para_right.
  reflexivity.
Qed.

Ltac disjoint_bytes :=
  let c := fresh "c" in let Hc := fresh "Hc" in let Hn := fresh "Hn" in
  intros c Hc Hn; unfold LF in *; cbn in Hc, Hn;
  repeat match goal with
  | H : _ \/ _ |- _ => destruct H
  | H : False |- _ => destruct H
  end; subst; discriminate.

(** None of the four markers is left in the output. *)
Lemma stripHTML_no_markers s :
  ~ Contains (stripHTML s) "<br>" /\
  ~ Contains (stripHTML s) "<br/>" /\
  ~ Contains (stripHTML s) "<br />" /\
  ~ Contains (stripHTML s) "</p><p>".
Proof.
  unfold stripHTML, replaceBreaks. cbv zeta.
  generalize (replaceEntities (removeTags s)) as r. intros r.
  repeat split.
  - apply (ReplaceAll_no_new_occurrence "<"%char "/p><p>" LF [LF]); [disjoint_bytes|].
    apply (ReplaceAll_no_new_occurrence "<"%char "br />" LF []); [disjoint_bytes|].
    apply (ReplaceAll_no_new_occurrence "<"%char "br/>" LF []); [disjoint_bytes|].
    apply (ReplaceAll_removes "<"%char "br>" LF []). disjoint_bytes.
  - apply (ReplaceAll_no_new_occurrence "<"%char "/p><p>" LF [LF]); [disjoint_bytes|].
    apply (ReplaceAll_no_new_occurrence "<"%char "br />" LF []); [disjoint_bytes|].
    apply (ReplaceAll_removes "<"%char "br/>" LF []). disjoint_bytes.
  - apply (ReplaceAll_no_new_occurrence "<"%char "/p><p>" LF [LF]); [disjoint_bytes|].
    apply (ReplaceAll_removes "<"%char "br />" LF []). disjoint_bytes.
  - apply (ReplaceAll_removes "<"%char "/p><p>" LF [LF]). disjoint_bytes.
Qed.

(** C4, as the code has it.  For every well-encoded (UTF-8) string that
    holds neither [<] nor [>] and none of the five entities [&lt;] [&gt;]
    [&amp;] [&quot;] [&#39;], [stripHTML] returns the string unchanged. *)
Theorem stripHTML_plain s :
  ValidString s = true ->
  ~ In langle s -> ~ In rangle s ->
  ~ Contains s "&lt;" -> ~ Contains s "&gt;" -> ~ Contains s "&amp;" ->
  ~ Contains s "&quot;" -> ~ Contains s "&#39;" ->
  stripHTML s = s.
Proof.
  intros Hv Hl Hg H1 H2 H3 H4 H5. unfold stripHTML.
  rewrite (proj1 (removeTags_plain s Hv Hl Hg)).
  unfold replaceEntities, replaceBreaks. cbv zeta.
  rewrite (ReplaceAll_absent "&"%char "lt;") by exact H1.
  rewrite (ReplaceAll_absent "&"%char "gt;") by exact H2.
  rewrite (ReplaceAll_absent "&"%char "amp;") by exact H3.
  rewrite (ReplaceAll_absent "&"%char "quot;") by exact H4.
  rewrite (ReplaceAll_absent "&"%char "#39;") by exact H5.
  rewrite (ReplaceAll_absent "<"%char "br>")
    by (apply (no_byte_no_Contains langle); [left; reflexivity | exact Hl]).
  rewrite (ReplaceAll_absent "<"%char "br/>")
    by (apply (no_byte_no_Contains langle); [left; reflexivity | exact Hl]).
  rewrite (ReplaceAll_absent "<"%char "br />")
    by (apply (no_byte_no_Contains langle); [left; reflexivity | exact Hl]).
  rewrite (ReplaceAll_absent "<"%char "/p><p>")
    by (apply (no_byte_no_Contains langle); [left; reflexivity | exact Hl]).
  reflexivity.
Qed.

(** Without the hypothesis on the encoding the string may change: the
    range loop reads a stray byte as U+FFFD and [string(char)] writes the
    three bytes of that rune. *)
Example stripHTML_stray_byte :
  stripHTML [ascii_of_N 255] = [ascii_of_N 239; ascii_of_N 191; ascii_of_N 189].
Proof. reflexivity. Qed.

Ltac absent_tac :=
  let H := fresh "H" in
  intros H; apply containsb_Contains in H; vm_compute in H; discriminate H.

Ltac no_byte_tac :=
  let H := fresh "H" in
  intros H; cbn in H;
  repeat match goal with
  | H : _ \/ _ |- _ => destruct H
  | H : False |- _ => destruct H
  end; discriminate.

Lemma stripHTML_plain_witness :
  ValidString "Tom & Jerry, déjà vu" = true /\
  stripHTML "Tom & Jerry, déjà vu" = "Tom & Jerry, déjà vu".
Proof.
  split; [reflexivity|].
  apply (stripHTML_plain "Tom & Jerry, déjà vu");
    [ reflexivity | no_byte_tac | no_byte_tac
    | absent_tac | absent_tac | absent_tac | absent_tac | absent_tac ].
Defined.

(** C4, as stated, fails.  The text ["1 > 0"] holds no [<], so no tag,
    and no [&], so no entity; yet the scan drops its [>]. *)
Lemma stripHTML_drops_lone_bracket :
  ValidString "1 > 0" = true /\
  ~ In langle "1 > 0" /\ ~ In "&"%char "1 > 0" /\
  stripHTML "1 > 0" = "1  0" /\
  stripHTML "1 > 0" <> "1 > 0".
Proof.
  split; [reflexivity|]. split; [no_byte_tac|]. split; [no_byte_tac|].
  split; [reflexivity|]. vm_compute. discriminate.
Qed.

(** C1.  On ["<p>Hello &amp; welcome</p><p>World</p>"] the scan removes
    the [</p><p>] between the paragraphs before the replacement of
    ["</p><p>"] by two line feeds can see it: the two paragraphs come out
    joined, and not separated by a blank line. *)
Theorem stripHTML_paragraphs_joined :
  stripHTML "<p>Hello &amp; welcome</p><p>World</p>" = "Hello & welcomeWorld" /\
  stripHTML "<p>Hello &amp; welcome</p><p>World</p>"
    <> "Hello & welcome" ++ [LF; LF] ++ "World".
Proof. split; [reflexivity|]. vm_compute. discriminate. Qed.

(** C9.  When a [<] is followed by no [>], the tag scan keeps what it
    kept of the text before that [<] and nothing after it, and ends in
    the inside-tag state; the entity and marker replacements are then
    applied to what was kept. *)
Theorem stripHTML_unclosed a b :
  ~ In rangle b ->
  removeTags (a ++ langle :: b) = removeTags a /\
  endsInTag (a ++ langle :: b) = true /\
  stripHTML (a ++ langle :: b) = replaceBreaks (replaceEntities (removeTags a)).
Proof.
  intros Hb. destruct (removeTags_unclosed a b Hb) as [E1 E2].
  unfold stripHTML. rewrite E1. auto.
Qed.

Lemma stripHTML_unclosed_witness :
  ~ In rangle " b &amp; c" /\
  removeTags ("a &lt; 1 " ++ langle :: " b &amp; c") = removeTags "a &lt; 1 " /\
  endsInTag ("a &lt; 1 " ++ langle :: " b &amp; c") = true /\
  stripHTML ("a &lt; 1 " ++ langle :: " b &amp; c")
    = replaceBreaks (replaceEntities (removeTags "a &lt; 1 ")).
Proof.
  assert (H : ~ In rangle " b &amp; c") by no_byte_tac.
  split; [exact H|]. exact (stripHTML_unclosed "a &lt; 1 " " b &amp; c" H).
Defined.

(** C10, as the code has it.  An occurrence of the escaped text
    ["&lt;br&gt;"] that the scan meets outside a tag becomes one line
    feed, and one of ["&lt;/p&gt;&lt;p&gt;"] two, the text before and
    after being stripped as it would be on its own; and the output of
    [stripHTML] never contains ["<br>"], ["<br/>"], ["<br />"] or
    ["</p><p>"]. *)
Theorem stripHTML_escaped_markers a b s :
  endsInTag a = false ->
  stripHTML (a ++ "&lt;br&gt;" ++ b) = stripHTML a ++ [LF] ++ stripHTML b /\
  stripHTML (a ++ "&lt;/p&gt;&lt;p&gt;" ++ b)
    = stripHTML a ++ [LF; LF] ++ stripHTML b /\
  ~ Contains (stripHTML s) "<br>" /\
  ~ Contains (stripHTML s) "<br/>" /\
  ~ Contains (stripHTML s) "<br />" /\
  ~ Contains (stripHTML s) "</p><p>".
Proof.
  intros Ha. split; [apply stripHTML_escaped_br; exact Ha|].
  split; [apply stripHTML_escaped_para; exact Ha|].
  apply stripHTML_no_markers.
Qed.

Lemma stripHTML_escaped_markers_witness :
  endsInTag "<b>one</b>" = false /\
  stripHTML ("<b>one</b>" ++ "&lt;br&gt;" ++ "two")
    = stripHTML "<b>one</b>" ++ [LF] ++ stripHTML "two" /\
  stripHTML ("<b>one</b>" ++ "&lt;/p&gt;&lt;p&gt;" ++ "two")
    = stripHTML "<b>one</b>" ++ [LF; LF] ++ stripHTML "two" /\
  ~ Contains (stripHTML "&lt;br&lt;br&gt;/&gt;") "<br>" /\
  ~ Contains (stripHTML "&lt;br&lt;br&gt;/&gt;") "<br/>" /\
  ~ Contains (stripHTML "&lt;br&lt;br&gt;/&gt;") "<br />" /\
  ~ Contains (stripHTML "&lt;br&lt;br&gt;/&gt;") "</p><p>".
Proof.
  split; [reflexivity|].
  exact (stripHTML_escaped_markers "<b>one</b>" "two" "&lt;br&lt;br&gt;/&gt;"
           eq_refl).
Defined.

(** C10, as stated, fails.  Inside a tag the escaped text is dropped with
    the rest of the tag, and no line feed is written. *)
Lemma stripHTML_escaped_inside_tag :
  Contains "<a title=&lt;br&gt;>x</a>" "&lt;br&gt;" /\
  stripHTML "<a title=&lt;br&gt;>x</a>" = "x" /\
  ~ In LF (stripHTML "<a title=&lt;br&gt;>x</a>").
Proof.
  split; [apply containsb_Contains; reflexivity|].
  split; [reflexivity|]. vm_compute. intros [H|[]]. discriminate H.
Qed.

End StripFacts.

(* ================================================================== *)
(** * Facts about the rendering *)
(* ================================================================== *)

Module RenderFacts.
Import GoString Strip Json Render Samples.

(** The loop body of [formatStatuses], in the parts of the
    specification. *)
Lemma formatStatus_parts (i : nat) (status : record) :
  formatStatus i status =
    match index status "reblog" with
    | VMap reblog => postHeader i ++ boostLine status ++ postBody reblog
    | _ => postHeader i ++ postBody status
    end.
Proof.
  unfold formatStatus, postHeader, boostLine, postBody.
  destruct (index status "reblog"); cbn [assert_map fst];
    repeat rewrite <- app_assoc; reflexivity.
Qed.

Lemma index_insert_ne (g : gmap gostring value) (k key : gostring) (x : value) :
  k <> key -> index (Some (<[k := x]> g)) key = index (Some g) key.
Proof. intros H. unfold index. rewrite lookup_insert_ne by exact H. reflexivity. Qed.

Lemma index_insert_eq (g : gmap gostring value) (key : gostring) (x : value) :
  index (Some (<[key := x]> g)) key = x.
Proof. unfold index. rewrite lookup_insert_eq. reflexivity. Qed.

Lemma getStringField_insert_ne (g : gmap gostring value) (other key : gostring) x :
  other <> key ->
  getStringField (Some (<[other := x]> g)) key = getStringField (Some g) key.
Proof. intros H. unfold getStringField. rewrite index_insert_ne by exact H. reflexivity. Qed.

Lemma getFloatField_insert_ne (g : gmap gostring value) (other key : gostring) x :
  other <> key ->
  getFloatField (Some (<[other := x]> g)) key = getFloatField (Some g) key.
Proof. intros H. unfold getFloatField. rewrite index_insert_ne by exact H. reflexivity. Qed.

Lemma getStringField_insert_eq (g : gmap gostring value) (key s : gostring) :
  getStringField (Some (<[key := VString s]> g)) key = s.
Proof. unfold getStringField. rewrite index_insert_eq. reflexivity. Qed.

Lemma getFloatField_insert_eq (g : gmap gostring value) (key : gostring) f :
  getFloatField (Some (<[key := VFloat f]> g)) key = f.
Proof. unfold getFloatField. rewrite index_insert_eq. reflexivity. Qed.

(** [int(f)] of a whole count is the count. *)
Lemma int_of_whole (n : Z) : (0 <= n < 2 ^ 53)%Z -> int_of_float64 (whole n) = n.
Proof.
  intros Hn. destruct n as [|m|m]; [reflexivity| |lia].
  unfold whole, int_of_float64. cbv zeta.
  replace (0 <=? 0)%Z with true by reflexivity.
  replace (Z.pos m * 2 ^ 0)%Z with (Z.pos m) by lia.
  replace ((- 2 ^ 63 <=? Z.pos m) && (Z.pos m <? 2 ^ 63))%Z with true; [reflexivity|].
  symmetry. apply andb_true_intro. split; [apply Z.leb_le | apply Z.ltb_lt]; lia.
Qed.

(** Reading the fields of a record key by key. *)
Ltac read_fields :=
  repeat first
    [ rewrite getStringField_insert_eq
    | rewrite getFloatField_insert_eq
    | rewrite index_insert_eq
    | rewrite getStringField_insert_ne by discriminate
    | rewrite getFloatField_insert_ne by discriminate
    | rewrite index_insert_ne by discriminate ].

(** The body of a post, read from a record that stores its fields. *)
Lemma postBody_stored content createdAt url username displayName
    replies reblogs favourites acc rest :
  (0 <= replies < 2 ^ 53)%Z -> (0 <= reblogs < 2 ^ 53)%Z ->
  (0 <= favourites < 2 ^ 53)%Z ->
  postBody (Some (storedPost content createdAt url username displayName
                    replies reblogs favourites acc rest))
  = "@" ++ username ++ " (" ++ displayName ++ ")" ++ [LF]
    ++ createdAt ++ [LF]
    ++ [LF] ++ stripHTML content ++ [LF; LF]
    ++ "💬 " ++ itoa replies ++ "  🔁 " ++ itoa reblogs
    ++ "  ⭐ " ++ itoa favourites ++ [LF]
    ++ "🔗 " ++ url ++ [LF; LF].
Proof.
  intros H1 H2 H3. unfold postBody, storedPost. cbv zeta.
  read_fields. cbn [assert_map fst]. read_fields.
  rewrite !int_of_whole by assumption. reflexivity.
Qed.

(** C2.  A status whose [reblog] is a record is rendered with the
    content, time stamp, counts, URL and author (username and display
    name) that this record stores, after a boost line with the username
    stored in the top-level [account]; whatever else the top-level record
    holds, its own content, time stamp, counts and URL included, has no
    part in the text.  A status whose [reblog] is not a record is
    rendered with the values it stores itself, and no boost line. *)
Theorem formatStatus_sources (i : nat)
    (content createdAt url username displayName booster : gostring)
    (replies reblogs favourites : Z)
    (acc rest outerAccount outer top : gmap gostring value) :
  (0 <= replies < 2 ^ 53)%Z -> (0 <= reblogs < 2 ^ 53)%Z ->
  (0 <= favourites < 2 ^ 53)%Z ->
  (forall m, index (Some top) "reblog" <> VMap m) ->
  formatStatus i
    (Some (<["reblog" : gostring :=
              VMap (Some (storedPost content createdAt url username displayName
                            replies reblogs favourites acc rest))]>
          (<["account" : gostring :=
              VMap (Some (<["username" : gostring := VString booster]> outerAccount))]>
           outer)))
  = "--- Post " ++ itoa (Z.of_nat i + 1) ++ " ---" ++ [LF]
    ++ "🔁 @" ++ booster ++ " boosted" ++ [LF]
    ++ "@" ++ username ++ " (" ++ displayName ++ ")" ++ [LF]
    ++ createdAt ++ [LF]
    ++ [LF] ++ stripHTML content ++ [LF; LF]
    ++ "💬 " ++ itoa replies ++ "  🔁 " ++ itoa reblogs
    ++ "  ⭐ " ++ itoa favourites ++ [LF]
    ++ "🔗 " ++ url ++ [LF; LF] /\
  formatStatus i
    (Some (storedPost content createdAt url username displayName
             replies reblogs favourites acc top))
  = "--- Post " ++ itoa (Z.of_nat i + 1) ++ " ---" ++ [LF]
    ++ "@" ++ username ++ " (" ++ displayName ++ ")" ++ [LF]
    ++ createdAt ++ [LF]
    ++ [LF] ++ stripHTML content ++ [LF; LF]
    ++ "💬 " ++ itoa replies ++ "  🔁 " ++ itoa reblogs
    ++ "  ⭐ " ++ itoa favourites ++ [LF]
    ++ "🔗 " ++ url ++ [LF; LF].
Proof.
  intros H1 H2 H3 Htop. split.
  - rewrite formatStatus_parts, index_insert_eq.
    rewrite postBody_stored by assumption.
    unfold postHeader, boostLine. read_fields. cbn [assert_map fst]. read_fields.
    repeat rewrite <- app_assoc. reflexivity.
  - rewrite formatStatus_parts.
    assert (E : index (Some (storedPost content createdAt url username displayName
                               replies reblogs favourites acc top)) "reblog"
                = index (Some top) "reblog").
    { unfold storedPost. read_fields. reflexivity. }
    rewrite E. rewrite postBody_stored by assumption.
    destruct (index (Some top) "reblog") as [| | | | |m] eqn:Er;
      try (unfold postHeader; repeat rewrite <- app_assoc; reflexivity).
    destruct (Htop m eq_refl).
Qed.

Lemma formatStatus_sources_witness :
  formatStatus 4
    (Some (<["reblog" : gostring :=
              VMap (Some (storedPost "<p>inner &amp; x</p>" "2024-01-01"
                            "https://example.org/1" "alice" "Alice" 3 12 40
                            ∅ ∅))]>
          (<["account" : gostring :=
              VMap (Some (<["username" : gostring := VString "bob"]> ∅))]>
          (<["content" : gostring := VString "<p>outer</p>"]>
          (<["url" : gostring := VString "https://example.org/2"]>
          (<["replies_count" : gostring := VFloat (whole 7)]> ∅))))))
  = "--- Post 5 ---" ++ [LF]
    ++ "🔁 @bob boosted" ++ [LF]
    ++ "@alice (Alice)" ++ [LF]
    ++ "2024-01-01" ++ [LF]
    ++ [LF] ++ "inner & x" ++ [LF; LF]
    ++ "💬 3  🔁 12  ⭐ 40" ++ [LF]
    ++ "🔗 https://example.org/1" ++ [LF; LF] /\
  formatStatus 4
    (Some (storedPost "<p>inner &amp; x</p>" "2024-01-01" "https://example.org/1"
             "alice" "Alice" 3 12 40 ∅
             (<["reblog" : gostring := VNil]> ∅)))
  = "--- Post 5 ---" ++ [LF]
    ++ "@alice (Alice)" ++ [LF]
    ++ "2024-01-01" ++ [LF]
    ++ [LF] ++ "inner & x" ++ [LF; LF]
    ++ "💬 3  🔁 12  ⭐ 40" ++ [LF]
    ++ "🔗 https://example.org/1" ++ [LF; LF].
Proof.
  apply (formatStatus_sources 4 "<p>inner &amp; x</p>" "2024-01-01"
           "https://example.org/1" "alice" "Alice" "bob" 3 12 40 ∅ ∅ ∅
           (<["content" : gostring := VString "<p>outer</p>"]>
           (<["url" : gostring := VString "https://example.org/2"]>
           (<["replies_count" : gostring := VFloat (whole 7)]> ∅)))
           (<["reblog" : gostring := VNil]> ∅));
    [ lia | lia | lia | intros m; discriminate ].
Defined.

Lemma range_from_app {A} (body : nat -> A -> gostring) i xs ys :
  range_from body i (xs ++ ys)
  = range_from body i xs ++ range_from body (i + length xs) ys.
Proof.
  revert i. induction xs as [|x xs IH]; intros i; cbn [app range_from length].
  - rewrite Nat.add_0_r. reflexivity.
  - rewrite IH, <- app_assoc. do 3 f_equal. lia.
Qed.

Lemma range_from_middle {A} (body : nat -> A -> gostring) xs x ys :
  range_from body 0 (xs ++ x :: ys)
  = range_from body 0 xs ++ body (length xs) x
    ++ range_from body (S (length xs)) ys.
Proof. rewrite range_from_app. reflexivity. Qed.

(** The conversion loop fills the slice with the maps among the elements
    and leaves nil records in the place of the others. *)
Lemma coerceStatuses_spec (pre : list record) (statuses : list value) :
  coerceStatuses (length pre) statuses
                 (pre ++ replicate (length statuses) (None : record))
  = pre ++ map (fun s => fst (assert_map s)) statuses.
Proof.
  revert pre. induction statuses as [|s rest IH]; intros pre; [reflexivity|].
  cbn [coerceStatuses length replicate map].
  assert (E : (let (sm, ok) := assert_map s in
               if ok then <[length pre := sm]> (pre ++ None :: replicate (length rest) None)
               else pre ++ None :: replicate (length rest) None)
              = (pre ++ [fst (assert_map s)]) ++ replicate (length rest) None).
  { rewrite <- app_assoc. cbn [app].
    destruct s; cbn [assert_map fst]; try reflexivity.
    rewrite insert_app_r_alt by lia. rewrite Nat.sub_diag. reflexivity. }
  destruct (assert_map s) as [sm ok] eqn:Es. cbn [fst] in E.
  specialize (IH (pre ++ [sm])). rewrite length_app in IH. cbn [length] in IH.
  rewrite Nat.add_1_r in IH. rewrite E, IH, <- app_assoc. reflexivity.
Qed.

Lemma formatSearchResults_statuses (g : gmap gostring value) s l :
  formatSearchResults (AValue (VMap (Some (<["statuses" : gostring := VSlice (s :: l)]> g))))
  = range_from formatStatus 0 (map (fun v => fst (assert_map v)) (s :: l)).
Proof.
  unfold formatSearchResults, index. rewrite lookup_insert_eq.
  cbn [default from_option id assert_slice fst].
  pose proof (coerceStatuses_spec [] (s :: l)) as E.
  cbn [length app] in E. cbn [length Nat.eqb]. rewrite E.
  unfold formatStatuses. reflexivity.
Qed.

(** C5.  A field that is absent or of another type reads as the empty
    string, or as zero, which is displayed as [0]; so does any field of
    the nil record.  Whatever a record holds, the renderers of statuses
    and of mentions write its block and go on with the records after it,
    and the renderer of search results renders an element that is not a
    record as the nil record.  (No accessor can stop the program: every
    type assertion of the source is of the two-result form, and reading
    a nil map is allowed.) *)
Theorem field_access_defaults
    (m : record) (g : gmap gostring value) (key : gostring)
    (before after : list record) (v : value) (vs : list value) :
  getStringField m key = match index m key with VString s => s | _ => [] end /\
  getFloatField m key
    = match index m key with VFloat f => f | _ => S754_zero false end /\
  index None key = VNil /\
  index (Some (delete key g)) key = VNil /\
  int_of_float64 (S754_zero false) = 0%Z /\
  formatStatuses (ARecords (before ++ m :: after))
    = range_from formatStatus 0 before ++ formatStatus (length before) m
      ++ range_from formatStatus (S (length before)) after /\
  formatMentions (ARecords (before ++ m :: after))
    = range_from formatMention 0 before ++ formatMention (length before) m
      ++ range_from formatMention (S (length before)) after /\
  formatSearchResults
    (AValue (VMap (Some (<["statuses" : gostring := VSlice (v :: vs)]> g))))
    = range_from formatStatus 0 (map (fun x => fst (assert_map x)) (v :: vs)).
Proof.
  split; [|split; [|split; [reflexivity|split; [|split; [reflexivity|split; [|split]]]]]].
  - destruct m as [g'|]; [|reflexivity]. unfold getStringField.
    destruct (index (Some g') key); reflexivity.
  - destruct m as [g'|]; [|reflexivity]. unfold getFloatField.
    destruct (index (Some g') key); reflexivity.
  - unfold index. rewrite lookup_delete_eq. reflexivity.
  - unfold formatStatuses. rewrite length_app. cbn [length].
    replace (length before + S (length after) =? 0)%nat with false
      by (symmetry; apply Nat.eqb_neq; lia).
    apply range_from_middle.
  - unfold formatMentions. rewrite length_app. cbn [length].
    replace (length before + S (length after) =? 0)%nat with false
      by (symmetry; apply Nat.eqb_neq; lia).
    apply range_from_middle.
  - apply formatSearchResults_statuses.
Qed.

(** C8.  The text rendering of [mentions] on the empty sequence is the
    line [No mentions found.] and nothing else; that of [search], when
    the [statuses] field is absent, empty or not a sequence, is the line
    [No posts found.]  ([fmt.Println] ends the line with a line feed.) *)
Theorem empty_renderings (searchResult : record) :
  (forall s l, index searchResult "statuses" <> VSlice (s :: l)) ->
  formatText "mentions" (ARecords []) = "No mentions found." ++ [LF] /\
  formatText "search" (AValue (VMap searchResult)) = "No posts found." ++ [LF].
Proof.
  intros H. split; [reflexivity|].
  unfold formatText.
  destruct (decide _) as [[E|E]|_]; [discriminate E|discriminate E|].
  destruct (decide _) as [E|_]; [discriminate E|].
  destruct (decide _) as [_|E]; [|congruence].
  unfold formatSearchResults.
  destruct (index searchResult "statuses") as [| | | |[|s l]|]; try reflexivity.
  destruct (H s l eq_refl).
Qed.

Lemma empty_renderings_witness :
  (forall s l, index (Some ∅) "statuses" <> VSlice (s :: l)) /\
  formatText "mentions" (ARecords []) = "No mentions found." ++ [LF] /\
  formatText "search" (AValue (VMap (Some ∅))) = "No posts found." ++ [LF].
Proof.
  assert (H : forall s l, index (Some ∅) "statuses" <> VSlice (s :: l))
    by (intros s l; discriminate).
  split; [exact H|]. exact (empty_renderings (Some ∅) H).
Defined.

(** A boost, rendered: the booster is bob, the post is alice's. *)
Example formatStatuses_boost :
  formatStatuses (ARecords [boost])
  = "--- Post 1 ---" ++ [LF]
    ++ "🔁 @bob boosted" ++ [LF]
    ++ "@alice (Alice)" ++ [LF]
    ++ "2024-01-01" ++ [LF]
    ++ [LF] ++ "inner & x" ++ [LF; LF]
    ++ "💬 3  🔁 0  ⭐ 0" ++ [LF]
    ++ "🔗 https://example.org/1" ++ [LF; LF].
Proof. vm_compute. reflexivity. Qed.

(** The nil record, rendered with the defaults. *)
Example formatStatuses_nil_record :
  formatStatuses (ARecords [None])
  = "--- Post 1 ---" ++ [LF]
    ++ "@ ()" ++ [LF]
    ++ [LF]
    ++ [LF; LF; LF]
    ++ "💬 0  🔁 0  ⭐ 0" ++ [LF]
    ++ "🔗 " ++ [LF; LF].
Proof. vm_compute. reflexivity. Qed.

End RenderFacts.

(* ================================================================== *)
(** * Facts about the program *)
(* ================================================================== *)

Module ProgFacts.
Import GoString GoStringFacts Strip Json Render Prog Samples.

Lemma bind_eq {A B} (m : M A) (k : A -> M B) p :
  (m ≫= k) p =
    match m p with
    | (Return a, p') => k a p'
    | (Exit code, p') => (Exit code, p')
    end.
Proof. reflexivity. Qed.

Lemma quiet_ret {A} (a : A) : quiet (mret a).
Proof. intros p. exists a, p. auto. Qed.

Lemma quiet_bind {A B} (m : M A) (k : A -> M B) :
  quiet m -> (forall a, quiet (k a)) -> quiet (m ≫= k).
Proof.
  intros Hm Hk p. destruct (Hm p) as (a & p1 & E1 & O1 & R1).
  destruct (Hk a p1) as (b & p2 & E2 & O2 & R2).
  exists b, p2. rewrite bind_eq, E1, E2. split; [reflexivity|]. split; congruence.
Qed.

Lemma quiet_send h req : quiet (send h req).
Proof. intros p. eexists _, _. split; [reflexivity|]. auto. Qed.

Lemma quiet_makeRequest h fl token endpoint :
  quiet (makeRequest h fl token endpoint).
Proof.
  unfold makeRequest. cbv zeta. destruct (NewRequest h _); [apply quiet_ret|].
  apply quiet_bind; [apply quiet_send|]. intros [err|err|code body];
    try apply quiet_ret.
  destruct (negb _); apply quiet_ret.
Qed.

Lemma quiet_getHomeTimeline h fl token : quiet (getHomeTimeline h fl token).
Proof.
  unfold getHomeTimeline. apply quiet_bind; [apply quiet_makeRequest|].
  intros [body|err]; [|apply quiet_ret].
  destruct (UnmarshalRecords h body); apply quiet_ret.
Qed.

Lemma quiet_getMentions h fl token : quiet (getMentions h fl token).
Proof.
  unfold getMentions. apply quiet_bind; [apply quiet_makeRequest|].
  intros [body|err]; [|apply quiet_ret].
  destruct (UnmarshalRecords h body); apply quiet_ret.
Qed.

Lemma quiet_searchPosts h fl token query : quiet (searchPosts h fl token query).
Proof.
  unfold searchPosts. apply quiet_bind; [apply quiet_makeRequest|].
  intros [body|err]; [|apply quiet_ret].
  destruct (UnmarshalRecord h body); apply quiet_ret.
Qed.

Lemma quiet_getUserTweets h fl token : quiet (getUserTweets h fl token).
Proof.
  unfold getUserTweets. apply quiet_bind; [apply quiet_makeRequest|].
  intros [body|err]; [|apply quiet_ret].
  destruct (UnmarshalRecord h body) as [account|]; [|apply quiet_ret].
  destruct (assert_string _) as [accountID ok]. destruct ok; cbn [negb]; [|apply quiet_ret].
  apply quiet_bind; [apply quiet_makeRequest|].
  intros [body'|err]; [|apply quiet_ret].
  destruct (UnmarshalRecords h body'); apply quiet_ret.
Qed.

Lemma quiet_fetch h fl token command rest : quiet (fetch h fl token command rest).
Proof.
  unfold fetch. repeat destruct (decide _);
    auto using quiet_getHomeTimeline, quiet_getUserTweets, quiet_getMentions,
               quiet_searchPosts.
Qed.

(** [outputError] followed by [os.Exit(1)]. *)
Lemma outputError_exit {A} h msg (p : process) :
  (outputError h msg ;; (os_Exit 1 : M A)) p =
    (Exit 1, {| stdout := stdout p ++ errorEnvelope h msg ++ [LF];
                stderr := stderr p ++ "Error: " ++ msg ++ [LF];
                sent := sent p |}).
Proof.
  unfold outputError, Marshal, errorEnvelope. cbn.
  repeat (f_equal; try (rewrite <- ?app_assoc; reflexivity)).
Qed.

Lemma reported_after h msg (p : process) :
  stdout p = [] -> stderr p = [] ->
  reported h msg {| stdout := stdout p ++ errorEnvelope h msg ++ [LF];
                    stderr := stderr p ++ "Error: " ++ msg ++ [LF];
                    sent := sent p |}.
Proof. intros -> ->. split; reflexivity. Qed.

Lemma ret_bind {A B} (a : A) (k : A -> M B) p : (mret a ≫= k) p = k a p.
Proof. reflexivity. Qed.

Lemma bind_exit {A B} (m : M A) (k : A -> M B) p code p' :
  m p = (Exit code, p') -> (m ≫= k) p = (Exit code, p').
Proof. intros E. rewrite bind_eq, E. reflexivity. Qed.

Lemma run_missing_token h fl command rest :
  run h fl (command :: rest) [] =
    (Exit 1, {| stdout := errorEnvelope h "MASTODON_TOKEN environment variable not set" ++ [LF];
                stderr := "Error: " ++ "MASTODON_TOKEN environment variable not set" ++ [LF];
                sent := [] |}).
Proof.
  unfold run, afterParse. cbn [length Nat.eqb]. rewrite ret_bind.
  destruct (decide ([] = [])) as [_|E]; [|congruence].
  rewrite bind_eq, outputError_exit. reflexivity.
Qed.

Lemma run_unknown h fl command rest token :
  token <> [] -> ~ knownCommand command ->
  run h fl (command :: rest) token =
    (Exit 1, {| stdout := errorEnvelope h ("unknown command: " ++ command) ++ [LF];
                stderr := "Error: " ++ ("unknown command: " ++ command) ++ [LF];
                sent := [] |}).
Proof.
  intros Ht Hk. unfold knownCommand in Hk.
  unfold run, afterParse. cbn [length Nat.eqb nth]. rewrite ret_bind.
  destruct (decide (token = [])) as [E|_]; [congruence|]. rewrite ret_bind.
  destruct (decide (command = "home")) as [E|_]; [tauto|].
  destruct (decide (command = "user-tweets")) as [E|_]; [tauto|].
  destruct (decide (command = "mentions")) as [E|_]; [tauto|].
  destruct (decide (command = "search")) as [E|_]; [tauto|].
  rewrite bind_eq, outputError_exit. reflexivity.
Qed.

Lemma run_missing_query h fl token :
  token <> [] ->
  run h fl ["search" : gostring] token =
    (Exit 1, {| stdout := errorEnvelope h "search command requires a query argument" ++ [LF];
                stderr := "Error: " ++ "search command requires a query argument" ++ [LF];
                sent := [] |}).
Proof.
  intros Ht.
  unfold run, afterParse. cbn [length Nat.eqb nth]. rewrite ret_bind.
  destruct (decide (token = [])) as [E|_]; [congruence|]. rewrite ret_bind.
  destruct (decide (("search" : gostring) = "home")) as [E|_]; [discriminate E|].
  destruct (decide (("search" : gostring) = "user-tweets")) as [E|_]; [discriminate E|].
  destruct (decide (("search" : gostring) = "mentions")) as [E|_]; [discriminate E|].
  destruct (decide (("search" : gostring) = "search")) as [_|E]; [|congruence].
  cbn [length Nat.ltb Nat.leb]. do 2 apply bind_exit.
  rewrite outputError_exit. reflexivity.
Qed.

Lemma run_fetch h fl command rest token :
  token <> [] -> knownCommand command -> (command = "search" -> rest <> []) ->
  run h fl (command :: rest) token
  = (fetch h fl token command rest ≫= afterFetch h fl command) start.
Proof.
  intros Ht Hk Hq.
  unfold run, afterParse. cbn [length Nat.eqb nth]. rewrite ret_bind.
  destruct (decide (token = [])) as [E|_]; [congruence|]. rewrite ret_bind.
  unfold fetch, afterFetch.
  destruct (decide (command = "home")) as [E|N1]; [reflexivity|].
  destruct (decide (command = "user-tweets")) as [E|N2]; [reflexivity|].
  destruct (decide (command = "mentions")) as [E|N3]; [reflexivity|].
  destruct (decide (command = "search")) as [E|N4].
  - destruct rest as [|query rest]; [destruct (Hq E eq_refl)|].
    reflexivity.
  - unfold knownCommand in Hk. tauto.
Qed.

Lemma Contains_middle (a t b : gostring) : Contains (a ++ t ++ b) t.
Proof. exists a, b. reflexivity. Qed.

(** C3, as the code has it.  For a response whose status code is not
    200, [makeRequest] returns the error [API error (status <code>):
    <body>], which contains the code in decimal and the body as it was
    received; for a response with status code 200 it returns the body
    and no error. *)
Theorem makeRequest_status h fl token endpoint p StatusCode body :
  NewRequest h (flagInstanceURL fl ++ endpoint) = None ->
  Do h (sent p) (buildRequest fl token (flagInstanceURL fl ++ endpoint))
    = Received StatusCode body ->
  fst (makeRequest h fl token endpoint p)
    = Return (if (StatusCode =? 200)%Z then Ok body
              else Err (ApiError StatusCode body)) /\
  Contains (ApiError StatusCode body) (itoa StatusCode) /\
  Contains (ApiError StatusCode body) body.
Proof.
  intros HN HD. split; [|split].
  - unfold makeRequest. cbv zeta. rewrite HN, bind_eq. unfold send.
    rewrite HD. unfold StatusOK, ApiError.
    destruct (StatusCode =? 200)%Z; reflexivity.
  - unfold ApiError. apply Contains_middle.
  - unfold ApiError. exists ("API error (status " ++ itoa StatusCode ++ "): "), [].
    rewrite app_nil_r, <- !app_assoc. reflexivity.
Qed.

Lemma makeRequest_status_witness :
  NewRequest (host notFound) (flagInstanceURL defaultFlags ++ "/api/v1/x") = None /\
  Do (host notFound) (sent start)
     (buildRequest defaultFlags "token" (flagInstanceURL defaultFlags ++ "/api/v1/x"))
    = Received 404 "Record not found" /\
  fst (makeRequest (host notFound) defaultFlags "token" "/api/v1/x" start)
    = Return (if (404 =? 200)%Z then Ok (list_ascii_of_string "Record not found")
              else Err (ApiError 404 "Record not found")) /\
  Contains (ApiError 404 "Record not found") (itoa 404) /\
  Contains (ApiError 404 "Record not found") "Record not found".
Proof.
  split; [reflexivity|]. split; [reflexivity|].
  exact (makeRequest_status (host notFound) defaultFlags "token" "/api/v1/x"
           start 404 "Record not found" eq_refl eq_refl).
Defined.

(** C3, as stated, fails.  A response with the status code 201, which is
    a 2xx code, is answered with an API error. *)
Lemma makeRequest_created_is_error :
  (200 <= 201 <= 299)%Z /\
  fst (makeRequest (host created) defaultFlags "token" "/api/v1/x" start)
    = Return (Err (ApiError 201 "{}")).
Proof. split; [lia | reflexivity]. Qed.

Lemma run_no_command h fl token :
  run h fl [] token = (Exit 1, {| stdout := []; stderr := usage; sent := [] |}).
Proof. reflexivity. Qed.

(** Every run with a command either fails, with its message reported, or
    returns having written nothing to the error stream. *)
Lemma run_outcome h fl command rest token :
  let r := run h fl (command :: rest) token in
  (exists msg, failure h fl command rest token msg /\
               fst r = Exit 1 /\ reported h msg (snd r)) \/
  (fst r = Return tt /\ stderr (snd r) = []).
Proof.
  cbv zeta.
  destruct (decide (token = [])) as [->|Ht].
  { left. eexists. split; [apply MissingToken; reflexivity|].
    rewrite run_missing_token. repeat split. }
  assert (Hdec : knownCommand command \/ ~ knownCommand command).
  { unfold knownCommand.
    destruct (decide (command = "home")); [tauto|].
    destruct (decide (command = "user-tweets")); [tauto|].
    destruct (decide (command = "mentions")); [tauto|].
    destruct (decide (command = "search")); tauto. }
  destruct Hdec as [Hk|Hk].
  2:{ left. eexists. split; [apply UnknownCommand; assumption|].
      rewrite run_unknown by assumption. repeat split. }
  destruct (decide (command = "search" /\ rest = [])) as [[-> ->]|Hq].
  { left. eexists. split; [apply MissingQuery; auto|].
    rewrite run_missing_query by assumption. repeat split. }
  assert (Hq' : command = "search" -> rest <> []) by (intros E1 E2; tauto).
  rewrite run_fetch by assumption. rewrite bind_eq.
  destruct (quiet_fetch h fl token command rest start) as (res & p' & E & O & R).
  rewrite E. cbn [stdout stderr start] in O, R.
  destruct res as [data|err]; cbn [afterFetch].
  - destruct (flagJSON fl) eqn:EJ.
    + cbv zeta. destruct (Marshal h _) as [output|err] eqn:EM.
      * right. unfold Println, print. cbn [fst snd stderr]. auto.
      * left. eexists. split; [eapply MarshalError; eassumption|].
        rewrite outputError_exit. split; [reflexivity|].
        apply reported_after; assumption.
    + right. unfold print. cbn [fst snd stderr]. auto.
  - left. exists err. split; [eapply FetchError; eassumption|].
    rewrite outputError_exit. split; [reflexivity|].
    apply reported_after; assumption.
Qed.

Lemma failure_exit h fl command rest token msg :
  failure h fl command rest token msg ->
  let r := run h fl (command :: rest) token in
  fst r = Exit 1 /\ reported h msg (snd r).
Proof.
  intros F. cbv zeta. destruct F as [-> | Ht Hk | Ht -> -> | err p Ht Hk Hq E
                                    | data p err Ht Hk Hq E EJ EM].
  - rewrite run_missing_token. repeat split.
  - rewrite run_unknown by assumption. repeat split.
  - rewrite run_missing_query by assumption. repeat split.
  - rewrite run_fetch by assumption. rewrite bind_eq, E. cbn [afterFetch].
    destruct (quiet_fetch h fl token command rest start) as (res & p' & E' & O & R).
    rewrite E in E'. injection E' as _ <-.
    rewrite outputError_exit. split; [reflexivity|].
    apply reported_after; assumption.
  - rewrite run_fetch by assumption. rewrite bind_eq, E. cbn [afterFetch].
    destruct (quiet_fetch h fl token command rest start) as (res & p' & E' & O & R).
    rewrite E in E'. injection E' as _ <-.
    rewrite EJ. cbv zeta. rewrite EM.
    rewrite outputError_exit. split; [reflexivity|].
    apply reported_after; assumption.
Qed.

(** A command line whose flags parse runs as [main] does from line 38
    on, with the flags and the arguments left. *)
Lemma command_line_parsed h argv token fl args :
  parse h defaultFlags argv = Flagged fl args ->
  command_line h argv token = run h fl args token.
Proof.
  intros E. unfold command_line, main, flag_Parse, run. rewrite E. reflexivity.
Qed.

(** A command line whose flags do not parse ends in [flag.Parse]. *)
Lemma command_line_failed h argv token err :
  parse h defaultFlags argv = Failed err ->
  command_line h argv token
  = (Exit (flagExit err),
     {| stdout := []; stderr := flagOutput h err; sent := [] |}).
Proof.
  intros E. unfold command_line, main, flag_Parse. rewrite E. reflexivity.
Qed.

(** Parsing stops at the first argument that does not start with a
    dash. *)
Lemma parse_command h fl (s : gostring) rest :
  (forall t, s <> "-"%char :: t) -> parse h fl (s :: rest) = Flagged fl (s :: rest).
Proof.
  intros Hs. destruct s as [|c0 [|c1 s2]]; try reflexivity.
  cbn [parse]. destruct (Ascii.eqb_spec c0 "-") as [->|N]; [|reflexivity].
  destruct (Hs (c1 :: s2) eq_refl).
Qed.

(** A command line that starts with a command has the default flags. *)
Lemma command_line_plain h (command : gostring) rest token :
  (forall t, command <> "-"%char :: t) ->
  command_line h (command :: rest) token = run h defaultFlags (command :: rest) token.
Proof.
  intros Hc. apply command_line_parsed. apply parse_command. exact Hc.
Qed.

(** A usual command line. *)
Example parse_sample :
  parse (host notFound) defaultFlags
    ["--limit" : gostring; "5" : gostring; "-json" : gostring;
     "-instance=https://example.social" : gostring;
     "search" : gostring; "cats" : gostring; "-json=false" : gostring]
  = Flagged {| flagInstanceURL := "https://example.social"; flagTimeout := 30;
               flagLimit := 5; flagJSON := true |}
            ["search" : gostring; "cats" : gostring; "-json=false" : gostring].
Proof. reflexivity. Qed.

(** C6, as the code has it.  On a command line whose flags parse and
    that names a command, every failure (a missing token, an unknown
    command, a missing search query, an error of the fetcher, an error
    encoding the result) ends the process with exit code 1 after writing
    the failure envelope on standard output and the line
    [Error: <message>] on the error stream, and nothing else, whatever
    the flags; the exit code is 0 exactly when there is no such failure,
    and then nothing is written on the error stream.  When the flags
    parse and no command is given, the process writes the usage text on
    the error stream, nothing on standard output, and exits with code 1.
    When the flags do not parse, the process writes what package [flag]
    reports on the error stream, nothing on standard output, and exits
    with code 2, or with code 0 when the flag is [-h] or [-help]. *)
Theorem failure_reporting h argv token :
  (forall fl command rest,
     parse h defaultFlags argv = Flagged fl (command :: rest) ->
     (forall msg, failure h fl command rest token msg ->
                  exit_code (command_line h argv token) = 1%Z /\
                  reported h msg (snd (command_line h argv token))) /\
     (exit_code (command_line h argv token) = 0%Z <->
      forall msg, ~ failure h fl command rest token msg) /\
     (exit_code (command_line h argv token) = 0%Z ->
      stderr (snd (command_line h argv token)) = [])) /\
  (forall fl,
     parse h defaultFlags argv = Flagged fl [] ->
     command_line h argv token
     = (Exit 1, {| stdout := []; stderr := usage; sent := [] |})) /\
  (forall err,
     parse h defaultFlags argv = Failed err -> err <> ErrHelp ->
     command_line h argv token
     = (Exit 2, {| stdout := []; stderr := flagOutput h err; sent := [] |})) /\
  (parse h defaultFlags argv = Failed ErrHelp ->
   command_line h argv token
   = (Exit 0, {| stdout := []; stderr := flagOutput h ErrHelp; sent := [] |})).
Proof.
  split; [|split; [|split]].
  - intros fl command rest E. rewrite (command_line_parsed _ _ _ _ _ E).
    split; [|split].
    + intros msg F. destruct (failure_exit _ _ _ _ _ _ F) as [E1 R].
      split; [|exact R]. unfold exit_code. rewrite E1. reflexivity.
    + split.
      * intros H0 msg F. destruct (failure_exit _ _ _ _ _ _ F) as [E1 _].
        unfold exit_code in H0. rewrite E1 in H0. discriminate H0.
      * intros Hno. destruct (run_outcome h fl command rest token)
          as [(msg & F & _)|[E1 _]]; [destruct (Hno msg F)|].
        unfold exit_code. rewrite E1. reflexivity.
    + intros H0. destruct (run_outcome h fl command rest token)
        as [(msg & _ & E1 & _)|[_ R]]; [|exact R].
      unfold exit_code in H0. rewrite E1 in H0. discriminate H0.
  - intros fl E. rewrite (command_line_parsed _ _ _ _ _ E). apply run_no_command.
  - intros err E N. rewrite (command_line_failed _ _ _ _ E).
    destruct err; [destruct (N eq_refl)| | | | |]; reflexivity.
  - intros E. rewrite (command_line_failed _ _ _ _ E). reflexivity.
Qed.

Lemma failure_reporting_witness :
  parse (host notFound) defaultFlags ["-json" : gostring; "home" : gostring]
    = Flagged (setJSON defaultFlags true) ["home" : gostring] /\
  failure (host notFound) (setJSON defaultFlags true) "home" [] "token"
          (ApiError 404 "Record not found") /\
  exit_code (command_line (host notFound)
               ["-json" : gostring; "home" : gostring] "token") = 1%Z /\
  reported (host notFound) (ApiError 404 "Record not found")
           (snd (command_line (host notFound)
                   ["-json" : gostring; "home" : gostring] "token")).
Proof.
  assert (F : failure (host notFound) (setJSON defaultFlags true) "home" [] "token"
                      (ApiError 404 "Record not found")).
  { eapply FetchError; [discriminate | left; reflexivity | discriminate
                       | reflexivity ]. }
  split; [reflexivity|]. split; [exact F|].
  exact (proj1 (proj1 (failure_reporting (host notFound)
                         ["-json" : gostring; "home" : gostring] "token")
                  (setJSON defaultFlags true) "home" [] eq_refl) _ F).
Defined.

(** C6, as stated, fails.  Run without a command, the program exits with
    code 1 and writes no envelope; run with a value that is no number
    for [--limit], or with a flag that is not defined, it exits with code
    2 and writes no envelope; and run with [-h] and no token, it exits
    with code 0 although nothing was fetched. *)
Lemma failures_without_envelope :
  (exit_code (command_line (host notFound) [] "token") = 1%Z /\
   stdout (snd (command_line (host notFound) [] "token")) = [] /\
   stderr (snd (command_line (host notFound) [] "token")) = usage) /\
  (exit_code (command_line (host notFound)
                ["--limit" : gostring; "abc" : gostring; "home" : gostring]
                "token") = 2%Z /\
   stdout (snd (command_line (host notFound)
                  ["--limit" : gostring; "abc" : gostring; "home" : gostring]
                  "token")) = []) /\
  (exit_code (command_line (host notFound)
                ["-verbose" : gostring; "home" : gostring] "token") = 2%Z /\
   stdout (snd (command_line (host notFound)
                  ["-verbose" : gostring; "home" : gostring] "token")) = []) /\
  (exit_code (command_line (host notFound) ["-h" : gostring] []) = 0%Z /\
   stdout (snd (command_line (host notFound) ["-h" : gostring] [])) = []).
Proof. repeat split. Qed.



End ProgFacts.

(* ================================================================== *)
(** * More about stripHTML *)
(* ================================================================== *)

Module StripLaws.
Import GoString GoStringFacts ReplaceFacts Strip StripFacts.
#[local] Ltac Zify.zify_post_hook ::= Z.to_euclidean_division_equations.

(** The bytes [string(r)] writes: the byte [r] itself for an ASCII rune,
    and only bytes from 0x80 on for any other. *)
Lemma string_of_rune_bytes c r :
  In c (string_of_rune r) ->
  ((r < 0x80)%N /\ byteval c = r) \/ ((0x80 <= r)%N /\ (0x80 <= byteval c)%N).
Proof.
  unfold string_of_rune, encode3, MaxRune, in_range, RuneError.
  destruct (N.leb_spec r 0x7F).
  { intros [<-|[]]. left. split; [lia|]. apply byteval_of_N. lia. }
  destruct (N.leb_spec r 0x7FF).
  { intros Hin. right. split; [lia|].
    destruct Hin as [<-|[<-|[]]]; rewrite byteval_of_N; lia. }
  destruct (N.ltb_spec 0x10FFFF r); cbn [orb].
  { intros Hin. right. split; [lia|].
    destruct Hin as [<-|[<-|[<-|[]]]]; vm_compute; discriminate. }
  destruct ((0xD800 <=? r)%N && (r <=? 0xDFFF)%N)%bool.
  { intros Hin. right. split; [lia|].
    destruct Hin as [<-|[<-|[<-|[]]]]; vm_compute; discriminate. }
  destruct (N.leb_spec r 0xFFFF).
  { intros Hin. right. split; [lia|].
    destruct Hin as [<-|[<-|[<-|[]]]]; rewrite byteval_of_N; lia. }
  intros Hin. right. split; [lia|].
  destruct Hin as [<-|[<-|[<-|[<-|[]]]]]; rewrite byteval_of_N; lia.
Qed.

(** An ASCII byte of the kept text is a rune of the input, and not one
    of the two brackets. *)
Lemma In_kept_ascii c b rs :
  (byteval c < 0x80)%N -> In c (kept b rs) ->
  In (byteval c) rs /\ byteval c <> 60%N /\ byteval c <> 62%N.
Proof.
  intros Hc. revert b. induction rs as [|char rs IH]; intros b Hin; [destruct Hin|].
  cbn [kept] in Hin.
  assert (Hrec : forall b', In c (kept b' rs) ->
            In (byteval c) (char :: rs) /\ byteval c <> 60%N /\ byteval c <> 62%N).
  { intros b' H. destruct (IH b' H) as (H1 & H2). split; [right; exact H1 | exact H2]. }
  destruct (N.eqb_spec char 60); [eauto|].
  destruct (N.eqb_spec char 62); [eauto|].
  destruct b; cbn [negb] in Hin; [eauto|].
  apply in_app_or in Hin. destruct Hin as [Hin|Hin]; [|eauto].
  destruct (string_of_rune_bytes c char Hin) as [[_ E]|[_ E]]; [|lia].
  subst char. split; [left; reflexivity|]. split; assumption.
Qed.

Lemma In_removeTags_ascii c s :
  (byteval c < 0x80)%N -> In c (removeTags s) ->
  In c s /\ c <> langle /\ c <> rangle.
Proof.
  intros Hc Hin. rewrite removeTags_kept in Hin.
  destruct (In_kept_ascii c false (runes s) Hc Hin) as (H1 & H2 & H3).
  split; [|split].
  - destruct (In_runes_ascii _ _ Hc H1) as (c' & Hc' & E).
    replace c with c'; [exact Hc'|].
    rewrite <- (ascii_of_byteval c'), E. apply ascii_of_byteval.
  - intros ->. apply H2. reflexivity.
  - intros ->. apply H3. reflexivity.
Qed.

(** X1.  On a string without [&] the nine replacements do nothing:
    [stripHTML] is the tag scan alone.  In particular no [<br>] and no
    [</p><p>] of such an input becomes a line feed, and the result holds
    no [<], no [>] and no [&]. *)
Theorem stripHTML_without_ampersand s :
  ~ In "&"%char s ->
  stripHTML s = removeTags s /\
  ~ In langle (stripHTML s) /\ ~ In rangle (stripHTML s) /\ ~ In "&"%char (stripHTML s).
Proof.
  intros Ha.
  assert (Hl : ~ In langle (removeTags s)).
  { intros H. apply In_removeTags_ascii in H; [|reflexivity]. tauto. }
  assert (Hg : ~ In rangle (removeTags s)).
  { intros H. apply In_removeTags_ascii in H; [|reflexivity]. tauto. }
  assert (Hn : ~ In "&"%char (removeTags s)).
  { intros H. apply In_removeTags_ascii in H; [|reflexivity]. tauto. }
  assert (E : stripHTML s = removeTags s).
  { unfold stripHTML, replaceEntities, replaceBreaks. cbv zeta.
    rewrite (ReplaceAll_absent "&"%char "lt;")
      by (apply (no_byte_no_Contains "&"%char); [left; reflexivity | exact Hn]).
    rewrite (ReplaceAll_absent "&"%char "gt;")
      by (apply (no_byte_no_Contains "&"%char); [left; reflexivity | exact Hn]).
    rewrite (ReplaceAll_absent "&"%char "amp;")
      by (apply (no_byte_no_Contains "&"%char); [left; reflexivity | exact Hn]).
    rewrite (ReplaceAll_absent "&"%char "quot;")
      by (apply (no_byte_no_Contains "&"%char); [left; reflexivity | exact Hn]).
    rewrite (ReplaceAll_absent "&"%char "#39;")
      by (apply (no_byte_no_Contains "&"%char); [left; reflexivity | exact Hn]).
    rewrite (ReplaceAll_absent "<"%char "br>")
      by (apply (no_byte_no_Contains langle); [left; reflexivity | exact Hl]).
    rewrite (ReplaceAll_absent "<"%char "br/>")
      by (apply (no_byte_no_Contains langle); [left; reflexivity | exact Hl]).
    rewrite (ReplaceAll_absent "<"%char "br />")
      by (apply (no_byte_no_Contains langle); [left; reflexivity | exact Hl]).
    rewrite (ReplaceAll_absent "<"%char "/p><p>")
      by (apply (no_byte_no_Contains langle); [left; reflexivity | exact Hl]).
    reflexivity. }
  rewrite E. auto.
Qed.

Lemma stripHTML_without_ampersand_witness :
  ~ In "&"%char "<p>one<br>two</p><p>three</p>" /\
  stripHTML "<p>one<br>two</p><p>three</p>"
    = removeTags "<p>one<br>two</p><p>three</p>" /\
  ~ In langle (stripHTML "<p>one<br>two</p><p>three</p>") /\
  ~ In rangle (stripHTML "<p>one<br>two</p><p>three</p>") /\
  ~ In "&"%char (stripHTML "<p>one<br>two</p><p>three</p>").
Proof.
  assert (H : ~ In "&"%char "<p>one<br>two</p><p>three</p>") by no_byte_tac.
  split; [exact H|].
  exact (stripHTML_without_ampersand "<p>one<br>two</p><p>three</p>" H).
Defined.

(** A tag that is closed is removed whole. *)
Lemma removeTags_closed_tag a t b :
  ~ In rangle t ->
  removeTags (a ++ langle :: t ++ rangle :: b) = removeTags a ++ removeTags b /\
  endsInTag (a ++ langle :: t ++ rangle :: []) = false.
Proof.
  intros Ht.
  assert (R : forall b', runes (a ++ langle :: t ++ rangle :: b')
                = runes a ++ 60%N :: runes t ++ 62%N :: runes b').
  { intros b'. rewrite runes_app_ascii by reflexivity.
    rewrite runes_ascii_cons by reflexivity.
    rewrite runes_app_ascii by reflexivity.
    rewrite runes_ascii_cons by reflexivity. reflexivity. }
  destruct (kept_inside (runes t)) as [E1 E2].
  { apply (byte_not_in_runes rangle); [reflexivity | exact Ht]. }
  split.
  - rewrite !removeTags_kept, R, kept_app. cbn [kept N.eqb Pos.eqb].
    rewrite kept_app, E1, E2. cbn [kept app N.eqb Pos.eqb]. reflexivity.
  - rewrite endsInTag_flag, R, flag_app. cbn [flag N.eqb Pos.eqb].
    rewrite flag_app, E2. reflexivity.
Qed.

(** X2.  A tag that is closed, from its [<] to the first [>] after it,
    is removed whole whatever stands inside it: the text before and the
    text after are scanned as [a ++ b] would be when [a] ends outside a
    tag, each from the state the scan is in, and two inputs that differ
    only inside such a tag are stripped to the same text. *)
Theorem stripHTML_closed_tag a t t' b :
  ~ In rangle t -> ~ In rangle t' ->
  stripHTML (a ++ langle :: t ++ rangle :: b)
    = replaceBreaks (replaceEntities (removeTags a ++ removeTags b)) /\
  stripHTML (a ++ langle :: t ++ rangle :: b)
    = stripHTML (a ++ langle :: t' ++ rangle :: b).
Proof.
  intros Ht Ht'. unfold stripHTML.
  rewrite (proj1 (removeTags_closed_tag a t b Ht)).
  rewrite (proj1 (removeTags_closed_tag a t' b Ht')). auto.
Qed.

Lemma stripHTML_closed_tag_witness :
  ~ In rangle "a href=&quot;x&quot;" /\ ~ In rangle "span <b" /\
  stripHTML ("see " ++ langle :: "a href=&quot;x&quot;" ++ rangle :: "this</a>")
    = replaceBreaks (replaceEntities (removeTags "see " ++ removeTags "this</a>")) /\
  stripHTML ("see " ++ langle :: "a href=&quot;x&quot;" ++ rangle :: "this</a>")
    = stripHTML ("see " ++ langle :: "span <b" ++ rangle :: "this</a>").
Proof.
  assert (H : ~ In rangle "a href=&quot;x&quot;") by no_byte_tac.
  assert (H' : ~ In rangle "span <b") by no_byte_tac.
  split; [exact H|]. split; [exact H'|].
  exact (stripHTML_closed_tag "see " "a href=&quot;x&quot;" "span <b" "this</a>" H H').
Defined.

(** One replacement of the chain, applied around a piece standing on its
    own. *)
Ltac stage m old new m2 :=
  rewrite (ReplaceAll_stage _ m _ old new m2) by (vm_compute; reflexivity).

(** What the nine replacements make of a piece [m] that stays on its own
    through all of them. *)
Ltac nine_stages m1 m2 m3 m4 m5 m6 m7 m8 m9 m10 :=
  unfold replaceEntities, replaceBreaks; cbv zeta;
  stage m1 (list_ascii_of_string "&lt;") (list_ascii_of_string "<") m2;
  stage m2 (list_ascii_of_string "&gt;") (list_ascii_of_string ">") m3;
  stage m3 (list_ascii_of_string "&amp;") (list_ascii_of_string "&") m4;
  stage m4 (list_ascii_of_string "&quot;") [ascii_of_N 34] m5;
  stage m5 (list_ascii_of_string "&#39;") (list_ascii_of_string "'") m6;
  stage m6 (list_ascii_of_string "<br>") [LF] m7;
  stage m7 (list_ascii_of_string "<br/>") [LF] m8;
  stage m8 (list_ascii_of_string "<br />") [LF] m9;
  stage m9 (list_ascii_of_string "</p><p>") [LF; LF] m10;
  reflexivity.

Lemma stripHTML_quot a b :
  endsInTag a = false ->
  stripHTML (a ++ "&quot;" ++ b) = stripHTML a ++ [ascii_of_N 34] ++ stripHTML b.
Proof.
  intros Ha. unfold stripHTML.
  rewrite removeTags_around; [|plain_ascii_tac|discriminate|exact Ha].
  generalize (removeTags a) as x. generalize (removeTags b) as y. intros y x.
  pose (q := [ascii_of_N 34]).
  nine_stages (list_ascii_of_string "&quot;") (list_ascii_of_string "&quot;")
              (list_ascii_of_string "&quot;") (list_ascii_of_string "&quot;")
              q q q q q q.
Qed.

Lemma stripHTML_apos a b :
  endsInTag a = false ->
  stripHTML (a ++ "&#39;" ++ b) = stripHTML a ++ "'" ++ stripHTML b.
Proof.
  intros Ha. unfold stripHTML.
  rewrite removeTags_around; [|plain_ascii_tac|discriminate|exact Ha].
  generalize (removeTags a) as x. generalize (removeTags b) as y. intros y x.
  pose (q := list_ascii_of_string "'").
  nine_stages (list_ascii_of_string "&#39;") (list_ascii_of_string "&#39;")
              (list_ascii_of_string "&#39;") (list_ascii_of_string "&#39;")
              (list_ascii_of_string "&#39;") q q q q q.
Qed.

(** X3.  An occurrence of [&quot;] that the scan meets outside a tag
    becomes one double quote, and one of [&#39;] one apostrophe; the text
    before and the text after are stripped as each would be on its own. *)
Theorem stripHTML_quote_entities a b :
  endsInTag a = false ->
  stripHTML (a ++ "&quot;" ++ b) = stripHTML a ++ [ascii_of_N 34] ++ stripHTML b /\
  stripHTML (a ++ "&#39;" ++ b) = stripHTML a ++ "'" ++ stripHTML b.
Proof.
  intros Ha. split; [apply stripHTML_quot | apply stripHTML_apos]; exact Ha.
Qed.

Lemma stripHTML_quote_entities_witness :
  endsInTag "<i>she said</i> " = false /\
  stripHTML ("<i>she said</i> " ++ "&quot;" ++ "hi &amp; bye")
    = stripHTML "<i>she said</i> " ++ [ascii_of_N 34] ++ stripHTML "hi &amp; bye" /\
  stripHTML ("<i>she said</i> " ++ "&#39;" ++ "hi &amp; bye")
    = stripHTML "<i>she said</i> " ++ "'" ++ stripHTML "hi &amp; bye".
Proof.
  split; [reflexivity|].
  exact (stripHTML_quote_entities "<i>she said</i> " "hi &amp; bye" eq_refl).
Defined.

Lemma stripHTML_amp_lt a b :
  endsInTag a = false ->
  stripHTML (a ++ "&amp;lt;" ++ b) = stripHTML a ++ "&lt;" ++ stripHTML b.
Proof.
  intros Ha. unfold stripHTML.
  rewrite removeTags_around; [|plain_ascii_tac|discriminate|exact Ha].
  generalize (removeTags a) as x. generalize (removeTags b) as y. intros y x.
  pose (m := list_ascii_of_string "&amp;lt;"). pose (q := list_ascii_of_string "&lt;").
  nine_stages m m m q q q q q q q.
Qed.

Lemma stripHTML_amp_gt a b :
  endsInTag a = false ->
  stripHTML (a ++ "&amp;gt;" ++ b) = stripHTML a ++ "&gt;" ++ stripHTML b.
Proof.
  intros Ha. unfold stripHTML.
  rewrite removeTags_around; [|plain_ascii_tac|discriminate|exact Ha].
  generalize (removeTags a) as x. generalize (removeTags b) as y. intros y x.
  pose (m := list_ascii_of_string "&amp;gt;"). pose (q := list_ascii_of_string "&gt;").
  nine_stages m m m q q q q q q q.
Qed.

Lemma stripHTML_amp_quot a b :
  endsInTag a = false ->
  stripHTML (a ++ "&amp;quot;" ++ b) = stripHTML a ++ [ascii_of_N 34] ++ stripHTML b.
Proof.
  intros Ha. unfold stripHTML.
  rewrite removeTags_around; [|plain_ascii_tac|discriminate|exact Ha].
  generalize (removeTags a) as x. generalize (removeTags b) as y. intros y x.
  pose (m := list_ascii_of_string "&amp;quot;"). pose (m' := list_ascii_of_string "&quot;").
  pose (q := [ascii_of_N 34]).
  nine_stages m m m m' q q q q q q.
Qed.

Lemma stripHTML_amp_apos a b :
  endsInTag a = false ->
  stripHTML (a ++ "&amp;#39;" ++ b) = stripHTML a ++ "'" ++ stripHTML b.
Proof.
  intros Ha. unfold stripHTML.
  rewrite removeTags_around; [|plain_ascii_tac|discriminate|exact Ha].
  generalize (removeTags a) as x. generalize (removeTags b) as y. intros y x.
  pose (m := list_ascii_of_string "&amp;#39;"). pose (m' := list_ascii_of_string "&#39;").
  pose (q := list_ascii_of_string "'").
  nine_stages m m m m' m' q q q q q.
Qed.

(** X4.  The replacements run one after the other, [&amp;] after [&lt;]
    and [&gt;] and before [&quot;] and [&#39;].  So a doubly escaped
    [&amp;lt;] or [&amp;gt;] is decoded once, to [&lt;] or [&gt;], while
    [&amp;quot;] and [&amp;#39;] are decoded twice, to the quote and the
    apostrophe themselves. *)
Theorem stripHTML_escaped_ampersand a b :
  endsInTag a = false ->
  stripHTML (a ++ "&amp;lt;" ++ b) = stripHTML a ++ "&lt;" ++ stripHTML b /\
  stripHTML (a ++ "&amp;gt;" ++ b) = stripHTML a ++ "&gt;" ++ stripHTML b /\
  stripHTML (a ++ "&amp;quot;" ++ b) = stripHTML a ++ [ascii_of_N 34] ++ stripHTML b /\
  stripHTML (a ++ "&amp;#39;" ++ b) = stripHTML a ++ "'" ++ stripHTML b.
Proof.
  intros Ha. repeat split;
    [apply stripHTML_amp_lt | apply stripHTML_amp_gt
    | apply stripHTML_amp_quot | apply stripHTML_amp_apos]; exact Ha.
Qed.

Lemma stripHTML_escaped_ampersand_witness :
  endsInTag "<code>x" = false /\
  stripHTML ("<code>x" ++ "&amp;lt;" ++ "y</code>")
    = stripHTML "<code>x" ++ "&lt;" ++ stripHTML "y</code>" /\
  stripHTML ("<code>x" ++ "&amp;gt;" ++ "y</code>")
    = stripHTML "<code>x" ++ "&gt;" ++ stripHTML "y</code>" /\
  stripHTML ("<code>x" ++ "&amp;quot;" ++ "y</code>")
    = stripHTML "<code>x" ++ [ascii_of_N 34] ++ stripHTML "y</code>" /\
  stripHTML ("<code>x" ++ "&amp;#39;" ++ "y</code>")
    = stripHTML "<code>x" ++ "'" ++ stripHTML "y</code>".
Proof.
  split; [reflexivity|].
  exact (stripHTML_escaped_ampersand "<code>x" "y</code>" eq_refl).
Defined.

Ltac decide_all :=
  repeat match goal with
  | |- context [(?a <=? ?b)%N] =>
      first [ replace (a <=? b)%N with true by (symmetry; apply N.leb_le; lia)
            | replace (a <=? b)%N with false by (symmetry; apply N.leb_gt; lia) ]
  | |- context [(?a <? ?b)%N] =>
      first [ replace (a <? b)%N with true by (symmetry; apply N.ltb_lt; lia)
            | replace (a <? b)%N with false by (symmetry; apply N.ltb_ge; lia) ]
  | |- context [(?a =? ?b)%N] =>
      first [ replace (a =? b)%N with true by (symmetry; apply N.eqb_eq; lia)
            | replace (a =? b)%N with false by (symmetry; apply N.eqb_neq; lia) ]
  end.

(** What [string(r)] writes is one well-encoded rune: a string that
    starts with it is well encoded when what follows is. *)
Lemma ValidString_string_of_rune r t :
  ValidString (string_of_rune r ++ t) = ValidString t.
Proof.
  unfold string_of_rune, encode3, MaxRune, RuneError.
  destruct (N.leb_spec r 0x7F).
  { cbn [app]. rewrite ValidString_unfold. generalize ValidString as V. intros V.
    unfold DecodeRuneInString. cbv zeta. rewrite byteval_of_N by lia.
    decide_all. destruct t; reflexivity. }
  destruct (N.leb_spec r 0x7FF).
  { cbn [app]. rewrite ValidString_unfold. generalize ValidString as V. intros V.
    unfold DecodeRuneInString, in_range. cbv zeta. rewrite !byteval_of_N by lia.
    decide_all. reflexivity. }
  assert (Hbad : ValidString ([ascii_of_N (0xE0 + 0xFFFD / 4096);
                               ascii_of_N (0x80 + (0xFFFD / 64) mod 64);
                               ascii_of_N (0x80 + 0xFFFD mod 64)]%N ++ t)
                 = ValidString t).
  { cbn [app]. rewrite ValidString_unfold. reflexivity. }
  destruct (N.ltb_spec 0x10FFFF r); cbn [orb]; [exact Hbad|].
  unfold in_range.
  destruct (N.leb_spec 0xD800 r); destruct (N.leb_spec r 0xDFFF); cbn [andb];
    try exact Hbad.
  - (* above the surrogates *)
    destruct (N.leb_spec r 0xFFFF).
    + cbn [app]. rewrite ValidString_unfold. generalize ValidString as V. intros V.
      unfold DecodeRuneInString, in_range. cbv zeta. rewrite !byteval_of_N by lia.
      decide_all. reflexivity.
    + cbn [app]. rewrite ValidString_unfold. generalize ValidString as V. intros V.
      unfold DecodeRuneInString, in_range. cbv zeta. rewrite !byteval_of_N by lia.
      assert (Hc : (r < 0x40000 \/ 0x40000 <= r < 0x100000 \/ 0x100000 <= r)%N) by lia.
      destruct Hc as [Hc|[Hc|Hc]]; decide_all; reflexivity.
  - (* below the surrogates *)
    replace (r <=? 0xFFFF)%N with true by (symmetry; apply N.leb_le; lia).
    cbn [app]. rewrite ValidString_unfold. generalize ValidString as V. intros V.
    unfold DecodeRuneInString, in_range. cbv zeta. rewrite !byteval_of_N by lia.
    assert (Hc : (r < 0x1000 \/ 0x1000 <= r < 0xD000 \/ 0xD000 <= r)%N) by lia.
    destruct Hc as [Hc|[Hc|Hc]]; decide_all; reflexivity.
  - lia.
Qed.

Lemma ValidString_kept b rs : ValidString (kept b rs) = true.
Proof.
  revert b. induction rs as [|char rs IH]; intros b; cbn [kept]; [reflexivity|].
  destruct (char =? 60)%N; [apply IH|].
  destruct (char =? 62)%N; [apply IH|].
  destruct b; cbn [negb]; [apply IH|].
  rewrite ValidString_string_of_rune. apply IH.
Qed.

(** X5.  Whatever the bytes of the input, the text the loop of
    [stripHTML] builds is well-formed UTF-8 and holds neither [<] nor
    [>]; scanning it again changes nothing, and ends outside a tag. *)
Theorem removeTags_clean s :
  ValidString (removeTags s) = true /\
  ~ In langle (removeTags s) /\ ~ In rangle (removeTags s) /\
  removeTags (removeTags s) = removeTags s /\
  endsInTag (removeTags s) = false.
Proof.
  assert (Hv : ValidString (removeTags s) = true).
  { rewrite removeTags_kept. apply ValidString_kept. }
  assert (Hl : ~ In langle (removeTags s)).
  { intros H. apply In_removeTags_ascii in H; [|reflexivity]. tauto. }
  assert (Hg : ~ In rangle (removeTags s)).
  { intros H. apply In_removeTags_ascii in H; [|reflexivity]. tauto. }
  destruct (removeTags_plain (removeTags s) Hv Hl Hg) as [E1 E2]. auto.
Qed.

(** Replacing by a text that is not longer does not lengthen. *)
Lemma ReplaceAll_length (o : ascii) (old' new s : gostring) :
  (length new <= length (o :: old'))%nat ->
  (length (ReplaceAll s (o :: old') new) <= length s)%nat.
Proof.
  intros Hn. induction s as [s IH] using list_len_ind.
  destruct s as [|c s]; [reflexivity|].
  rewrite ReplaceAll_cons.
  destruct (cut_prefix (o :: old') (c :: s)) as [r|] eqn:E.
  - apply cut_prefix_Some in E. rewrite length_app.
    assert (Hr : (length r < length (c :: s))%nat).
    { rewrite E, length_app. cbn [length]. lia. }
    specialize (IH r Hr). rewrite E, length_app. lia.
  - cbn [length]. specialize (IH s ltac:(cbn [length]; lia)). lia.
Qed.

Lemma kept_length b rs :
  (length (kept b rs) <= length (flat_map string_of_rune rs))%nat.
Proof.
  revert b. induction rs as [|char rs IH]; intros b; cbn [kept flat_map]; [lia|].
  rewrite length_app.
  destruct (char =? 60)%N; [specialize (IH true); lia|].
  destruct (char =? 62)%N; [specialize (IH false); lia|].
  destruct b; cbn [negb]; [specialize (IH true); lia|].
  rewrite length_app. specialize (IH false). lia.
Qed.

(** X6.  On well-formed UTF-8, [stripHTML] never returns more bytes than
    it was given: the scan only drops runes, and each replacement puts a
    text that is not longer than the one it replaces. *)
Theorem stripHTML_not_longer s :
  ValidString s = true -> (length (stripHTML s) <= length s)%nat.
Proof.
  intros Hv.
  assert (H0 : (length (removeTags s) <= length s)%nat).
  { rewrite removeTags_kept. rewrite <- (runes_roundtrip s Hv) at 2.
    apply kept_length. }
  unfold stripHTML, replaceEntities, replaceBreaks. cbv zeta.
  repeat match goal with
  | |- (length (ReplaceAll ?x ?old ?new) <= _)%nat =>
      etransitivity;
      [ apply (ReplaceAll_length _ _ new x); cbn; lia | ]
  end.
  exact H0.
Qed.

Lemma stripHTML_not_longer_witness :
  ValidString "<p>café &amp; thé</p>" = true /\
  (length (stripHTML "<p>café &amp; thé</p>") <= length ("<p>café &amp; thé</p>" : gostring))%nat.
Proof.
  split; [reflexivity|].
  exact (stripHTML_not_longer "<p>café &amp; thé</p>" eq_refl).
Defined.

End StripLaws.

(* ================================================================== *)
(** * More about the renderers *)
(* ================================================================== *)

Module RenderLaws.
Import GoString Strip Json Render Samples RenderFacts.

(** X7.  Reading a field back.  A string stored under a key is what
    [getStringField] returns for it and a number what [getFloatField]
    returns; each accessor gives its default for a value of the other
    kind and for a key that was deleted, and neither is affected by what
    is stored under another key. *)
Theorem field_store_read (g : gmap gostring value) (key other : gostring)
    (s : gostring) (f : float64) (x : value) :
  other <> key ->
  getStringField (Some (<[key := VString s]> g)) key = s /\
  getFloatField (Some (<[key := VFloat f]> g)) key = f /\
  getStringField (Some (<[key := VFloat f]> g)) key = [] /\
  getFloatField (Some (<[key := VString s]> g)) key = S754_zero false /\
  getStringField (Some (<[other := x]> g)) key = getStringField (Some g) key /\
  getFloatField (Some (<[other := x]> g)) key = getFloatField (Some g) key /\
  getStringField (Some (delete key g)) key = [] /\
  getFloatField (Some (delete key g)) key = S754_zero false.
Proof.
  intros Hne.
  rewrite (getStringField_insert_ne g other key x Hne).
  rewrite (getFloatField_insert_ne g other key x Hne).
  unfold getStringField, getFloatField.
  rewrite !index_insert_eq. unfold index. rewrite !lookup_delete_eq.
  repeat split.
Qed.

Lemma field_store_read_witness :
  ("url" : gostring) <> "content" /\
  getStringField (Some (<["content" : gostring := VString "hello"]> ∅)) "content"
    = "hello" /\
  getFloatField (Some (<["content" : gostring := VFloat three_and_a_half]> ∅)) "content"
    = three_and_a_half /\
  getStringField (Some (<["content" : gostring := VFloat three_and_a_half]> ∅)) "content"
    = [] /\
  getFloatField (Some (<["content" : gostring := VString "hello"]> ∅)) "content"
    = S754_zero false /\
  getStringField (Some (<["url" : gostring := VBool true]> ∅)) "content"
    = getStringField (Some ∅) "content" /\
  getFloatField (Some (<["url" : gostring := VBool true]> ∅)) "content"
    = getFloatField (Some ∅) "content" /\
  getStringField (Some (delete ("content" : gostring) ∅)) "content" = [] /\
  getFloatField (Some (delete ("content" : gostring) ∅)) "content" = S754_zero false.
Proof.
  assert (H : ("url" : gostring) <> "content") by discriminate.
  split; [exact H|].
  exact (field_store_read ∅ "content" "url" "hello" three_and_a_half (VBool true) H).
Defined.

(** X8.  A mention is rendered from three fields of the notification,
    [account], [status] and [created_at], and from the [content] alone of
    its status: whatever is stored under any other key of the
    notification, or under any other key of the status, leaves the text
    as it was. *)
Theorem formatMention_sources (i : nat) (g st : gmap gostring value)
    (k k' : gostring) (x x' : value) :
  k <> "account" -> k <> "status" -> k <> "created_at" -> k' <> "content" ->
  formatMention i (Some (<[k := x]> g)) = formatMention i (Some g) /\
  formatMention i (Some (<["status" : gostring := VMap (Some (<[k' := x']> st))]> g))
  = formatMention i (Some (<["status" : gostring := VMap (Some st)]> g)).
Proof.
  intros Ha Hs Hc Hk. split.
  - unfold formatMention. rewrite !index_insert_ne by assumption.
    rewrite getStringField_insert_ne by assumption. reflexivity.
  - unfold formatMention. rewrite !index_insert_eq.
    rewrite !(index_insert_ne _ "status" "account") by discriminate.
    rewrite !(getStringField_insert_ne _ "status" "created_at") by discriminate.
    cbn [assert_map fst].
    rewrite (getStringField_insert_ne st k' "content") by exact Hk.
    reflexivity.
Qed.

Lemma formatMention_sources_witness :
  formatMention 0 (Some (<["id" : gostring := VString "7"]> ∅))
    = formatMention 0 (Some ∅) /\
  formatMention 0
    (Some (<["status" : gostring
             := VMap (Some (<["created_at" : gostring := VString "2024-01-01"]> ∅))]> ∅))
  = formatMention 0 (Some (<["status" : gostring := VMap (Some ∅)]> ∅)).
Proof.
  apply (formatMention_sources 0 ∅ ∅ "id" "created_at" (VString "7")
           (VString "2024-01-01")); discriminate.
Defined.

Lemma map_assert_map_VMap (rs : list record) :
  map (fun v => fst (assert_map v)) (map VMap rs) = rs.
Proof. induction rs as [|r rs IH]; [reflexivity|]. cbn [map assert_map fst]. rewrite IH. reflexivity. Qed.

(** X9.  A search result whose [statuses] are the records [rs] is
    rendered exactly as the home timeline [rs] is, whatever else the
    result holds. *)
Theorem search_renders_as_home (g : gmap gostring value) (rs : list record) :
  formatText "search"
    (AValue (VMap (Some (<["statuses" : gostring := VSlice (map VMap rs)]> g))))
  = formatText "home" (ARecords rs).
Proof.
  assert (E1 : forall d, formatText "search" d = formatSearchResults d) by reflexivity.
  assert (E2 : forall d, formatText "home" d = formatStatuses d) by reflexivity.
  rewrite E1, E2. destruct rs as [|r rs].
  - unfold formatSearchResults. rewrite index_insert_eq. reflexivity.
  - change (map VMap (r :: rs)) with (VMap r :: map VMap rs).
    rewrite formatSearchResults_statuses.
    change (VMap r :: map VMap rs) with (map VMap (r :: rs)).
    rewrite map_assert_map_VMap. reflexivity.
Qed.

End RenderLaws.

(* ================================================================== *)
(** * Runs: requests, output and exit code *)
(* ================================================================== *)

Module WireFacts.
Import GoString Strip Json Render Prog Samples Cases ProgFacts Wire.





(** [makeRequest], run: nothing is sent when the request cannot be
    created, and one request otherwise, whose exchange decides the
    result. *)
Lemma makeRequest_unsent h fl token endpoint err p :
  NewRequest h (flagInstanceURL fl ++ endpoint) = Some err ->
  makeRequest h fl token endpoint p = (Return (Err ("creating request: " ++ err)), p).
Proof. intros E. unfold makeRequest. cbv zeta. rewrite E. reflexivity. Qed.

Lemma makeRequest_sent h fl token endpoint p :
  NewRequest h (flagInstanceURL fl ++ endpoint) = None ->
  makeRequest h fl token endpoint p =
    (Return (exchangeResult
               (Do h (sent p) (buildRequest fl token (flagInstanceURL fl ++ endpoint)))),
     {| stdout := stdout p; stderr := stderr p;
        sent := sent p ++ [buildRequest fl token (flagInstanceURL fl ++ endpoint)] |}).
Proof.
  intros E. unfold makeRequest. cbv zeta. rewrite E, bind_eq. unfold send.
  destruct (Do h (sent p) _) as [err|err|code body]; cbn [exchangeResult]; try reflexivity.
  destruct (code =? StatusOK)%Z; reflexivity.
Qed.









(** From 9223372037 seconds on, the timeout overflows the nanoseconds of
    a [time.Duration]: the context is created with a timeout that has
    passed. *)
Example timeout_wraps :
  Deadline (buildRequest
              {| flagInstanceURL := defaultInstanceURL; flagTimeout := 9223372036;
                 flagLimit := 20; flagJSON := false |} "token" [])
    = 9223372036000000000%Z /\
  Deadline (buildRequest
              {| flagInstanceURL := defaultInstanceURL; flagTimeout := 9223372037;
                 flagLimit := 20; flagJSON := false |} "token" [])
    = (-9223372036709551616)%Z.
Proof. split; reflexivity. Qed.


Lemma singleRequest_known command : singleRequest command -> knownCommand command.
Proof. unfold singleRequest, knownCommand. tauto. Qed.

(** The fetcher of a command that makes one request, run. *)
Lemma fetch_single h fl token command rest p :
  singleRequest command ->
  NewRequest h (flagInstanceURL fl ++ firstEndpoint h fl command rest) = None ->
  fetch h fl token command rest p =
    (Return (match exchangeResult
                     (Do h (sent p) (firstRequest h fl token command rest)) with
             | Err err => Err err
             | Ok body => decode h command body
             end),
     {| stdout := stdout p; stderr := stderr p;
        sent := sent p ++ [firstRequest h fl token command rest] |}).
Proof.
  intros Hs. unfold fetch, firstRequest, firstEndpoint, decode.
  destruct (decide (command = "home")) as [->|N1].
  { intros HN. destruct (decide (("home" : gostring) = "search")) as [E|_]; [discriminate E|].
    unfold getHomeTimeline. rewrite bind_eq, (makeRequest_sent _ _ _ _ _ HN).
    destruct (exchangeResult _) as [body|err]; [|reflexivity].
    destruct (UnmarshalRecords h body); reflexivity. }
  destruct (decide (command = "user-tweets")) as [->|N2].
  { destruct Hs as [E|[E|E]]; discriminate E. }
  destruct (decide (command = "mentions")) as [->|N3].
  { intros HN. destruct (decide (("mentions" : gostring) = "search")) as [E|_]; [discriminate E|].
    unfold getMentions. rewrite bind_eq, (makeRequest_sent _ _ _ _ _ HN).
    destruct (exchangeResult _) as [body|err]; [|reflexivity].
    destruct (UnmarshalRecords h body); reflexivity. }
  destruct (decide (command = "search")) as [->|N4].
  { intros HN. unfold searchPosts. rewrite bind_eq, (makeRequest_sent _ _ _ _ _ HN).
    destruct (exchangeResult _) as [body|err]; [|reflexivity].
    destruct (UnmarshalRecord h body); reflexivity. }
  unfold singleRequest in Hs. tauto.
Qed.

(** The first step of any fetcher. *)
Lemma fetch_first_failure h fl token command rest p msg :
  knownCommand command ->
  NewRequest h (flagInstanceURL fl ++ firstEndpoint h fl command rest) = None ->
  exchangeResult (Do h (sent p) (firstRequest h fl token command rest)) = Err msg ->
  fetch h fl token command rest p =
    (Return (Err msg),
     {| stdout := stdout p; stderr := stderr p;
        sent := sent p ++ [firstRequest h fl token command rest] |}).
Proof.
  intros Hk HN HE.
  destruct (decide (command = "user-tweets")) as [->|N].
  - unfold fetch.
    destruct (decide (("user-tweets" : gostring) = "home")) as [E|_]; [discriminate E|].
    destruct (decide (("user-tweets" : gostring) = "user-tweets")) as [_|E]; [|congruence].
    unfold getUserTweets. rewrite bind_eq.
    unfold firstRequest, firstEndpoint in *.
    destruct (decide (("user-tweets" : gostring) = "home")) as [E|_]; [discriminate E|].
    destruct (decide (("user-tweets" : gostring) = "user-tweets")) as [_|E]; [|congruence].
    rewrite (makeRequest_sent _ _ _ _ _ HN), HE. reflexivity.
  - rewrite fetch_single; [rewrite HE; reflexivity | | exact HN].
    unfold knownCommand in Hk. unfold singleRequest. tauto.
Qed.

Lemma fetch_first_unsent h fl token command rest p err :
  knownCommand command ->
  NewRequest h (flagInstanceURL fl ++ firstEndpoint h fl command rest) = Some err ->
  fetch h fl token command rest p = (Return (Err ("creating request: " ++ err)), p).
Proof.
  intros Hk. unfold fetch, firstEndpoint.
  destruct (decide (command = "home")) as [->|N1].
  { intros HN. unfold getHomeTimeline.
    rewrite bind_eq, (makeRequest_unsent _ _ _ _ _ _ HN). reflexivity. }
  destruct (decide (command = "user-tweets")) as [->|N2].
  { intros HN. unfold getUserTweets.
    rewrite bind_eq, (makeRequest_unsent _ _ _ _ _ _ HN). reflexivity. }
  destruct (decide (command = "mentions")) as [->|N3].
  { intros HN. unfold getMentions.
    rewrite bind_eq, (makeRequest_unsent _ _ _ _ _ _ HN). reflexivity. }
  intros HN. unfold searchPosts.
  rewrite bind_eq, (makeRequest_unsent _ _ _ _ _ _ HN). reflexivity.
Qed.

Lemma afterFetch_Err h fl command msg requests :
  afterFetch h fl command (Err msg)
    {| stdout := []; stderr := []; sent := requests |}
  = failed h msg requests.
Proof. cbn [afterFetch]. rewrite outputError_exit. reflexivity. Qed.

(** X11.  When the first request of a command is not answered with
    status 200 (the connection fails, the body cannot be read, or the
    status is another one), the run ends there: exit code 1, the error
    envelope on standard output, the error line on standard error, and
    that one request sent, also for [user-tweets]. *)
Theorem first_exchange_failure h fl command rest token msg :
  token <> [] -> knownCommand command -> (command = "search" -> rest <> []) ->
  NewRequest h (flagInstanceURL fl ++ firstEndpoint h fl command rest) = None ->
  exchangeResult (Do h [] (firstRequest h fl token command rest)) = Err msg ->
  run h fl (command :: rest) token
  = failed h msg [firstRequest h fl token command rest].
Proof.
  intros Ht Hk Hq HN HE. rewrite run_fetch by assumption.
  rewrite bind_eq, (fetch_first_failure h fl token command rest start msg Hk HN HE).
  apply afterFetch_Err.
Qed.

Lemma first_exchange_failure_witness :
  exchangeResult
    (Do (host (ReadFailed "unexpected EOF")) []
        (firstRequest (host (ReadFailed "unexpected EOF")) defaultFlags "token"
           "user-tweets" []))
    = Err ("reading response: unexpected EOF" : gostring) /\
  run (host (ReadFailed "unexpected EOF")) defaultFlags ["user-tweets" : gostring] "token"
  = failed (host (ReadFailed "unexpected EOF")) "reading response: unexpected EOF"
      [firstRequest (host (ReadFailed "unexpected EOF")) defaultFlags "token"
         "user-tweets" []].
Proof.
  split; [reflexivity|].
  apply (first_exchange_failure (host (ReadFailed "unexpected EOF")) defaultFlags
           "user-tweets" [] "token");
    [ discriminate | right; left; reflexivity | discriminate
    | reflexivity | reflexivity ].
Defined.

(** X12.  When the request of a command cannot be created, the run fails
    with the message [creating request: ...] and nothing is sent. *)
Theorem request_not_created h fl command rest token err :
  token <> [] -> knownCommand command -> (command = "search" -> rest <> []) ->
  NewRequest h (flagInstanceURL fl ++ firstEndpoint h fl command rest) = Some err ->
  run h fl (command :: rest) token = failed h ("creating request: " ++ err) [].
Proof.
  intros Ht Hk Hq HN. rewrite run_fetch by assumption.
  rewrite bind_eq, (fetch_first_unsent h fl token command rest start err Hk HN).
  apply afterFetch_Err.
Qed.

Lemma request_not_created_witness :
  NewRequest refusing
    (flagInstanceURL defaultFlags ++ firstEndpoint refusing defaultFlags "search" ["cats" : gostring])
    = Some ("invalid URL" : gostring) /\
  run refusing defaultFlags ["search" : gostring; "cats" : gostring] "token"
  = failed refusing "creating request: invalid URL" [].
Proof.
  split; [reflexivity|].
  apply (request_not_created refusing defaultFlags "search" ["cats" : gostring] "token");
    [ discriminate | right; right; right; reflexivity | discriminate | reflexivity ].
Defined.

Lemma run_single h fl command rest token body :
  token <> [] -> singleRequest command -> (command = "search" -> rest <> []) ->
  NewRequest h (flagInstanceURL fl ++ firstEndpoint h fl command rest) = None ->
  exchangeResult (Do h [] (firstRequest h fl token command rest)) = Ok body ->
  run h fl (command :: rest) token
  = afterFetch h fl command (decode h command body)
      {| stdout := []; stderr := []; sent := [firstRequest h fl token command rest] |}.
Proof.
  intros Ht Hs Hq HN HE.
  rewrite run_fetch by (try apply singleRequest_known; assumption).
  rewrite bind_eq, (fetch_single h fl token command rest start Hs HN).
  cbn [sent start]. rewrite HE. reflexivity.
Qed.

(** X13.  In text mode, a run of [home], [mentions] or [search] whose one
    request is answered with status 200 and a body that decodes prints
    the rendering of the decoded data, and nothing else: exit code 0,
    nothing on standard error, one request sent, to the endpoint of the
    command. *)
Theorem single_request_text h fl command rest token body data :
  token <> [] -> singleRequest command -> (command = "search" -> rest <> []) ->
  NewRequest h (flagInstanceURL fl ++ firstEndpoint h fl command rest) = None ->
  exchangeResult (Do h [] (firstRequest h fl token command rest)) = Ok body ->
  decode h command body = Ok data ->
  flagJSON fl = false ->
  run h fl (command :: rest) token
  = succeeded (formatText command data) [firstRequest h fl token command rest].
Proof.
  intros Ht Hs Hq HN HE HD HJ.
  rewrite (run_single h fl command rest token body) by assumption.
  rewrite HD. cbn [afterFetch]. rewrite HJ. reflexivity.
Qed.

Lemma single_request_text_witness :
  decode (scripted [accepted "[{}]"] (Ok None) (Ok [boost])) "home" "[{}]"
    = Ok (ARecords [boost]) /\
  run (scripted [accepted "[{}]"] (Ok None) (Ok [boost])) defaultFlags
      ["home" : gostring] "token"
  = succeeded (formatText "home" (ARecords [boost]))
      [firstRequest (scripted [accepted "[{}]"] (Ok None) (Ok [boost])) defaultFlags
         "token" "home" []].
Proof.
  split; [reflexivity|].
  apply (single_request_text (scripted [accepted "[{}]"] (Ok None) (Ok [boost]))
           defaultFlags "home" [] "token" "[{}]" (ARecords [boost]));
    [ discriminate | left; reflexivity | discriminate
    | reflexivity | reflexivity | reflexivity | reflexivity ].
Defined.

Lemma decode_shape h command body data :
  decode h command body = Ok data ->
  (command = "search" /\ exists m, data = AValue (VMap m)) \/
  (command <> "search" /\ exists l, data = ARecords l).
Proof.
  unfold decode. destruct (decide (command = "search")) as [E|N].
  - destruct (UnmarshalRecord h body) as [m|]; [|discriminate].
    intros [= <-]. left. eauto.
  - destruct (UnmarshalRecords h body) as [l|]; [|discriminate].
    intros [= <-]. right. eauto.
Qed.

(** X14.  With [-json], the same run prints one line: the envelope with
    [success] true and, as [data], the JSON text of the decoded data; the
    renderers are not involved. *)
Theorem single_request_json h fl command rest token body data j :
  token <> [] -> singleRequest command -> (command = "search" -> rest <> []) ->
  NewRequest h (flagInstanceURL fl ++ firstEndpoint h fl command rest) = None ->
  exchangeResult (Do h [] (firstRequest h fl token command rest)) = Ok body ->
  decode h command body = Ok data ->
  encodeData h data = Ok j ->
  flagJSON fl = true ->
  run h fl (command :: rest) token
  = succeeded (successEnvelope j ++ [LF]) [firstRequest h fl token command rest].
Proof.
  intros Ht Hs Hq HN HE HD HM HJ.
  rewrite (run_single h fl command rest token body) by assumption.
  rewrite HD. cbn [afterFetch]. rewrite HJ. cbv zeta.
  assert (EM : Marshal h {| Success := true; Data := data; Error := None |}
               = Ok (successEnvelope j)).
  { unfold Marshal. cbn [Success Data Error]. 
    destruct (decode_shape _ _ _ _ HD) as [[_ [m ->]]|[_ [l ->]]];
      rewrite HM; unfold successEnvelope; f_equal;
      repeat rewrite <- app_assoc; reflexivity. }
  rewrite EM. reflexivity.
Qed.

Lemma single_request_json_witness :
  flagJSON jsonFlags = true /\
  run (scripted [accepted "{}"] (Ok (Some ∅)) (Ok [])) jsonFlags
      ["search" : gostring; "cats" : gostring] "token"
  = succeeded (successEnvelope "[{}]" ++ [LF])
      [firstRequest (scripted [accepted "{}"] (Ok (Some ∅)) (Ok [])) jsonFlags
         "token" "search" ["cats" : gostring]].
Proof.
  split; [reflexivity|].
  apply (single_request_json (scripted [accepted "{}"] (Ok (Some ∅)) (Ok []))
           jsonFlags "search" ["cats" : gostring] "token" "{}"
           (AValue (VMap (Some ∅))) "[{}]");
    [ discriminate | right; right; reflexivity | discriminate
    | reflexivity | reflexivity | reflexivity | reflexivity | reflexivity ].
Defined.

(** X15.  When the body of the one response does not decode, the run
    fails with a message that starts with [parsing response: ], after the
    one request; nothing is rendered. *)
Theorem decode_error_reported h fl command rest token body msg :
  token <> [] -> singleRequest command -> (command = "search" -> rest <> []) ->
  NewRequest h (flagInstanceURL fl ++ firstEndpoint h fl command rest) = None ->
  exchangeResult (Do h [] (firstRequest h fl token command rest)) = Ok body ->
  decode h command body = Err msg ->
  run h fl (command :: rest) token
    = failed h msg [firstRequest h fl token command rest] /\
  exists err, msg = "parsing response: " ++ err.
Proof.
  intros Ht Hs Hq HN HE HD. split.
  - rewrite (run_single h fl command rest token body) by assumption.
    rewrite HD. apply afterFetch_Err.
  - unfold decode in HD. destruct (decide _) as [Ec|Nc].
    + destruct (UnmarshalRecord h body) as [|e']; [discriminate|].
      injection HD as <-. eauto.
    + destruct (UnmarshalRecords h body) as [|e']; [discriminate|].
      injection HD as <-. eauto.
Qed.

Lemma decode_error_reported_witness :
  decode (scripted [accepted "<html>"] (Ok None) (Err "invalid character"))
         "mentions" "<html>"
    = Err ("parsing response: invalid character" : gostring) /\
  run (scripted [accepted "<html>"] (Ok None) (Err "invalid character")) defaultFlags
      ["mentions" : gostring] "token"
    = failed (scripted [accepted "<html>"] (Ok None) (Err "invalid character"))
        "parsing response: invalid character"
        [firstRequest (scripted [accepted "<html>"] (Ok None) (Err "invalid character"))
           defaultFlags "token" "mentions" []].
Proof.
  split; [reflexivity|].
  apply (decode_error_reported
           (scripted [accepted "<html>"] (Ok None) (Err "invalid character"))
           defaultFlags "mentions" [] "token" "<html>"
           "parsing response: invalid character");
    [ discriminate | right; left; reflexivity | discriminate
    | reflexivity | reflexivity | reflexivity ].
Defined.

(** [getUserTweets] once the credentials were fetched. *)
Lemma getUserTweets_first h fl token p body :
  NewRequest h (flagInstanceURL fl ++ "/api/v1/accounts/verify_credentials") = None ->
  exchangeResult
    (Do h (sent p)
        (buildRequest fl token
           (flagInstanceURL fl ++ "/api/v1/accounts/verify_credentials"))) = Ok body ->
  getUserTweets h fl token p =
    let p1 := {| stdout := stdout p; stderr := stderr p;
                 sent := sent p ++ [buildRequest fl token
                   (flagInstanceURL fl ++ "/api/v1/accounts/verify_credentials")] |} in
    match UnmarshalRecord h body with
    | Err err => (Return (Err ("parsing account: " ++ err)), p1)
    | Ok account =>
      match index account "id" with
      | VString accountID =>
        (r ← makeRequest h fl token (statusesEndpoint fl accountID);
         match r with
         | Err err => mret (Err err)
         | Ok body' => mret (decode h "user-tweets" body')
         end) p1
      | _ => (Return (Err "account ID not found"), p1)
      end
    end.
Proof.
  intros HN HE. unfold getUserTweets. rewrite bind_eq, (makeRequest_sent _ _ _ _ _ HN), HE.
  cbv zeta. destruct (UnmarshalRecord h body) as [account|err]; [|reflexivity].
  destruct (index account "id") as [| | |accountID| |]; cbn [assert_string negb];
    try reflexivity.
  unfold statusesEndpoint, decode.
  destruct (decide (("user-tweets" : gostring) = "search")) as [E|_]; [discriminate E|].
  rewrite !bind_eq. destruct (makeRequest _ _ _ _ _) as [[[body'|err]|code] p2];
    try reflexivity.
  destruct (UnmarshalRecords h body'); reflexivity.
Qed.

Lemma run_user_tweets h fl rest token :
  token <> [] ->
  run h fl (("user-tweets" : gostring) :: rest) token
  = (getUserTweets h fl token ≫= afterFetch h fl "user-tweets") start.
Proof.
  intros Ht. rewrite run_fetch; [reflexivity|exact Ht| |discriminate].
  right. left. reflexivity.
Qed.

(** X16.  When the account that [verify_credentials] returns has no
    [id], or one that is not a string, [user-tweets] fails with
    [account ID not found] after that one request: the statuses are not
    asked for. *)
Theorem user_tweets_without_id h fl rest token body account :
  token <> [] ->
  NewRequest h (flagInstanceURL fl ++ "/api/v1/accounts/verify_credentials") = None ->
  exchangeResult (Do h [] (credentialsRequest fl token)) = Ok body ->
  UnmarshalRecord h body = Ok account ->
  (forall accountID, index account "id" <> VString accountID) ->
  run h fl (("user-tweets" : gostring) :: rest) token
  = failed h "account ID not found" [credentialsRequest fl token].
Proof.
  intros Ht HN HE HU Hid. rewrite run_user_tweets by exact Ht.
  rewrite bind_eq, (getUserTweets_first h fl token start body HN HE). cbv zeta.
  rewrite HU. destruct (index account "id") as [| | |accountID| |] eqn:E;
    try apply afterFetch_Err.
  destruct (Hid accountID eq_refl).
Qed.

Lemma user_tweets_without_id_witness :
  UnmarshalRecord (scripted [accepted "{}"] (Ok numbered) (Ok [])) "{}" = Ok numbered /\
  run (scripted [accepted "{}"] (Ok numbered) (Ok [])) defaultFlags
      ["user-tweets" : gostring] "token"
  = failed (scripted [accepted "{}"] (Ok numbered) (Ok [])) "account ID not found"
      [credentialsRequest defaultFlags "token"].
Proof.
  split; [reflexivity|].
  apply (user_tweets_without_id (scripted [accepted "{}"] (Ok numbered) (Ok []))
           defaultFlags [] "token" "{}" numbered);
    [ discriminate | reflexivity | reflexivity | reflexivity
    | intros accountID; discriminate ].
Defined.

(** X17.  When both requests of [user-tweets] are answered with status
    200 and both bodies decode, the second request goes to the statuses
    of the account whose [id] the first response gave, with the limit of
    the flags; in text mode the run prints the rendering of the statuses
    and exits with code 0, having sent these two requests in this
    order. *)
Theorem user_tweets_chain h fl rest token body account accountID body' statuses :
  token <> [] ->
  NewRequest h (flagInstanceURL fl ++ "/api/v1/accounts/verify_credentials") = None ->
  exchangeResult (Do h [] (credentialsRequest fl token)) = Ok body ->
  UnmarshalRecord h body = Ok account ->
  index account "id" = VString accountID ->
  NewRequest h (flagInstanceURL fl ++ statusesEndpoint fl accountID) = None ->
  exchangeResult
    (Do h [credentialsRequest fl token]
        (buildRequest fl token (flagInstanceURL fl ++ statusesEndpoint fl accountID)))
    = Ok body' ->
  UnmarshalRecords h body' = Ok statuses ->
  flagJSON fl = false ->
  run h fl (("user-tweets" : gostring) :: rest) token
  = succeeded (formatStatuses (ARecords statuses))
      [credentialsRequest fl token;
       buildRequest fl token (flagInstanceURL fl ++ statusesEndpoint fl accountID)].
Proof.
  intros Ht HN HE HU Hid HN2 HE2 HU2 HJ. rewrite run_user_tweets by exact Ht.
  rewrite bind_eq, (getUserTweets_first h fl token start body HN HE). cbv zeta.
  rewrite HU, Hid, bind_eq, (makeRequest_sent _ _ _ _ _ HN2).
  cbn [sent start app stdout stderr]. fold (credentialsRequest fl token).
  rewrite HE2. unfold decode.
  destruct (decide (("user-tweets" : gostring) = "search")) as [E|_]; [discriminate E|].
  rewrite HU2. unfold mret, M_ret. cbn [afterFetch]. rewrite HJ. reflexivity.
Qed.

Lemma user_tweets_chain_witness :
  index me "id" = VString "42" /\
  run server defaultFlags ["user-tweets" : gostring] "token"
  = succeeded (formatStatuses (ARecords [boost]))
      [credentialsRequest defaultFlags "token";
       buildRequest defaultFlags "token"
         (flagInstanceURL defaultFlags ++ statusesEndpoint defaultFlags "42")].
Proof.
  split; [reflexivity|].
  apply (user_tweets_chain server defaultFlags [] "token" "{}" me "42" "[{}]" [boost]);
    [ discriminate | reflexivity | reflexivity | reflexivity | reflexivity
    | reflexivity | reflexivity | reflexivity | reflexivity ].
Defined.

(** X18.  Arguments the program does not read: a command other than
    [search] runs as it would with no argument after it, and [search] as
    it would with its query alone. *)
Theorem surplus_arguments_ignored h fl (command query : gostring) rest token :
  command <> "search" ->
  run h fl (command :: rest) token = run h fl [command] token /\
  run h fl (("search" : gostring) :: query :: rest) token
    = run h fl ["search" : gostring; query] token.
Proof.
  intros N. split.
  - unfold run, afterParse. cbn [length Nat.eqb nth].
    destruct (decide (command = "home")); [reflexivity|].
    destruct (decide (command = "user-tweets")); [reflexivity|].
    destruct (decide (command = "mentions")); [reflexivity|].
    destruct (decide (command = "search")); [congruence|reflexivity].
  - reflexivity.
Qed.

Lemma surplus_arguments_ignored_witness :
  run (host notFound) defaultFlags ["mentions" : gostring; "a" : gostring; "b" : gostring] "token"
    = run (host notFound) defaultFlags ["mentions" : gostring] "token" /\
  run (host notFound) defaultFlags ["search" : gostring; "cats" : gostring; "a" : gostring; "b" : gostring] "token"
    = run (host notFound) defaultFlags ["search" : gostring; "cats" : gostring] "token".
Proof.
  apply (surplus_arguments_ignored (host notFound) defaultFlags "mentions" "cats"
           ["a" : gostring; "b" : gostring] "token").
  discriminate.
Defined.

Lemma formatStatus_starts i r : exists t, formatStatus i r = "-"%char :: t.
Proof.
  rewrite RenderFacts.formatStatus_parts. unfold postHeader.
  destruct (index r "reblog"); eexists; reflexivity.
Qed.

Lemma formatMention_starts i r : exists t, formatMention i r = "-"%char :: t.
Proof. unfold formatMention. eexists. reflexivity. Qed.

Lemma formatStatuses_records l :
  exists c t, formatStatuses (ARecords l) = c :: t /\ (c = "-"%char \/ c = "N"%char).
Proof.
  destruct l as [|r l]; [eexists _, _; split; [reflexivity|auto]|].
  cbn [formatStatuses length Nat.eqb range_from].
  destruct (formatStatus_starts 0 r) as [t ->]. eexists _, _. split; [reflexivity|auto].
Qed.

Lemma formatMentions_records l :
  exists c t, formatMentions (ARecords l) = c :: t /\ (c = "-"%char \/ c = "N"%char).
Proof.
  destruct l as [|r l]; [eexists _, _; split; [reflexivity|auto]|].
  cbn [formatMentions length Nat.eqb range_from].
  destruct (formatMention_starts 0 r) as [t ->]. eexists _, _. split; [reflexivity|auto].
Qed.

Lemma formatSearchResults_record m :
  exists c t, formatSearchResults (AValue (VMap m)) = c :: t
              /\ (c = "-"%char \/ c = "N"%char).
Proof.
  unfold formatSearchResults. cbv zeta.
  destruct (length _ =? 0)%nat; [eexists _, _; split; [reflexivity|auto]|].
  apply formatStatuses_records.
Qed.

Lemma fetch_shape h fl token command rest p data p' :
  knownCommand command ->
  fetch h fl token command rest p = (Return (Ok data), p') ->
  (command = "search" /\ exists m, data = AValue (VMap m)) \/
  (command <> "search" /\ exists l, data = ARecords l).
Proof.
  intros Hk. unfold fetch.
  destruct (decide (command = "home")) as [->|N1].
  { unfold getHomeTimeline. rewrite bind_eq.
    destruct (makeRequest _ _ _ _ _) as [[[body|err]|code] p1]; try discriminate.
    destruct (UnmarshalRecords h body); [|discriminate].
    intros [= <- _]. right. split; [discriminate|eauto]. }
  destruct (decide (command = "user-tweets")) as [->|N2].
  { unfold getUserTweets. rewrite bind_eq.
    destruct (makeRequest _ _ _ _ _) as [[[body|err]|code] p1]; try discriminate.
    destruct (UnmarshalRecord h body) as [account|]; [|discriminate].
    destruct (assert_string _) as [accountID ok]. destruct ok; cbn [negb]; [|discriminate].
    rewrite bind_eq.
    destruct (makeRequest _ _ _ _ _) as [[[body'|err]|code] p2]; try discriminate.
    destruct (UnmarshalRecords h body'); [|discriminate].
    intros [= <- _]. right. split; [discriminate|eauto]. }
  destruct (decide (command = "mentions")) as [->|N3].
  { unfold getMentions. rewrite bind_eq.
    destruct (makeRequest _ _ _ _ _) as [[[body|err]|code] p1]; try discriminate.
    destruct (UnmarshalRecords h body); [|discriminate].
    intros [= <- _]. right. split; [discriminate|eauto]. }
  assert (E : command = "search") by (unfold knownCommand in Hk; tauto).
  unfold searchPosts. rewrite bind_eq.
  destruct (makeRequest _ _ _ _ _) as [[[body|err]|code] p1]; try discriminate.
  destruct (UnmarshalRecord h body); [|discriminate].
  intros [= <- _]. left. split; [exact E|eauto].
Qed.

(** X19.  What a fetcher returns for a command is of the shape the
    renderer of that command expects: after a successful fetch,
    [formatText] prints neither [Error: unexpected data format] nor
    [Unknown command format]. *)
Theorem fetched_data_fits_renderer h fl token command rest p data p' :
  knownCommand command ->
  fetch h fl token command rest p = (Return (Ok data), p') ->
  formatText command data <> "Error: unexpected data format" ++ [LF] /\
  formatText command data <> "Unknown command format" ++ [LF].
Proof.
  intros Hk HF.
  assert (H : exists c t, formatText command data = c :: t
                          /\ (c = "-"%char \/ c = "N"%char)).
  { destruct (fetch_shape _ _ _ _ _ _ _ _ Hk HF) as [[-> [m ->]]|[N [l ->]]].
    - apply formatSearchResults_record.
    - unfold formatText. unfold knownCommand in Hk.
      destruct (decide (command = "home" \/ command = "user-tweets"));
        [apply formatStatuses_records|].
      destruct (decide (command = "mentions")); [apply formatMentions_records|].
      tauto. }
  destruct H as (c & t & -> & Hc).
  split; intros E; injection E as E _; destruct Hc; subst; discriminate.
Qed.

Lemma fetched_data_fits_renderer_witness :
  knownCommand "user-tweets" /\
  formatText "user-tweets" (ARecords [boost])
    <> "Error: unexpected data format" ++ [LF] /\
  formatText "user-tweets" (ARecords [boost]) <> "Unknown command format" ++ [LF].
Proof.
  assert (K : knownCommand "user-tweets") by (right; left; reflexivity).
  split; [exact K|].
  apply (fetched_data_fits_renderer server defaultFlags "token" "user-tweets" []
           start (ARecords [boost])
           (snd (fetch server defaultFlags "token" "user-tweets" [] start)) K).
  reflexivity.
Defined.

End WireFacts.
